(** * LD2410 mmWave radar driver (ld2410.py)

    A shallow embedding of the driver's frame encoder, frame scanner,
    retrying receiver, configuration handshake, report decoder and bounded
    history buffer, followed by the properties proved about them.

    Conventions of the embedding:
    - a Python [bytes] object is a [list byte]; a Python [int] is a [Z];
    - a raised exception is a value of [exn];
    - pure fallible functions return [res A]; methods of the [LD2410] object
      run in the monad [M], which threads the object and ends in a value, in
      a raised exception, or never ends ([Hang]);
    - logging and [time.sleep] calls have no effect on the modelled state and
      are left out. *)

From Stdlib Require Import ZArith List Lia String Bool DecimalString Ascii.
From Stdlib Require HexadecimalString DecimalZ.
From Stdlib.Strings Require Import Byte.
Import ListNotations.
Local Open Scope Z_scope.

(* ================================================================== *)
(** ** Bytes, integers and exceptions *)

Definition bytes := list byte.

Inductive exn : Type :=
| LD2410Exception (msg : string)
| OverflowError
| IndexError
| AttributeError
| TypeError
| ValueError
| SerialException.

Inductive res (A : Type) : Type :=
| Val (a : A)
| Err (e : exn).
Arguments Val {A} a.
Arguments Err {A} e.

Definition res_bind {A B} (r : res A) (k : A -> res B) : res B :=
  match r with
  | Val a => k a
  | Err e => Err e
  end.

Notation "'let*' x ':=' r 'in' k" := (res_bind r (fun x => k))
  (at level 10, x name, r at level 100, k at level 200).

Fixpoint mapM_res {A B} (f : A -> res B) (l : list A) : res (list B) :=
  match l with
  | [] => Val []
  | a :: l' => let* b := f a in let* bs := mapM_res f l' in Val (b :: bs)
  end.

(** The integer value of a byte, as [seq[i]] yields it. *)
Definition int_of_byte (b : byte) : Z := Z.of_N (Byte.to_N b).

Definition bytes_eqb (a b : bytes) : bool :=
  if list_eq_dec Byte.byte_eq_dec a b then true else false.

(** [n.to_bytes(len, byteorder="little", signed=False)]: the [len]
    little-endian digits of [n] in base 256; [OverflowError] when [n] is
    negative or does not fit. *)
Fixpoint to_bytes_le (len : nat) (n : Z) : res bytes :=
  match len with
  | O => if n =? 0 then Val [] else Err OverflowError
  | S len' =>
      match Byte.of_N (Z.to_N (n mod 256)) with
      | Some b => let* bs := to_bytes_le len' (n / 256) in Val (b :: bs)
      | None => Err OverflowError
      end
  end.

Definition int_to_bytes (n : Z) (len : nat) : res bytes :=
  if n <? 0 then Err OverflowError else to_bytes_le len n.

(** [seq[i]] for a non-negative index. *)
Definition getitem (seq : bytes) (i : nat) : res Z :=
  match nth_error seq i with
  | Some b => Val (int_of_byte b)
  | None => Err IndexError
  end.

(** [seq[a:b]] for non-negative bounds: slicing never raises. *)
Definition slice (seq : bytes) (a b : nat) : bytes :=
  firstn (b - a) (skipn a seq).

(** [list_ints_to_bytes]: the loop [res += b.to_bytes(1, ...)], an
    accumulator threaded from left to right. *)
Fixpoint list_ints_to_bytes_from (acc : bytes) (inp : list Z) : res bytes :=
  match inp with
  | [] => Val acc
  | b :: inp' =>
      let* one := int_to_bytes b 1 in
      list_ints_to_bytes_from (acc ++ one) inp'
  end.

Definition list_ints_to_bytes (inp : list Z) : res bytes :=
  list_ints_to_bytes_from [] inp.

Definition bytes_to_list_ints (inp : bytes) : list Z := map int_of_byte inp.

(** [int.from_bytes(inp, byteorder="little", signed=False)]. *)
Fixpoint byte_pair_to_int (inp : bytes) : Z :=
  match inp with
  | [] => 0
  | b :: inp' => int_of_byte b + 256 * byte_pair_to_int inp'
  end.

(** Python's [bytes(l)] on a list of ints: the bytes object formed from the
    list, defined element by element.  This is the reference the conversion
    loop above is compared with. *)
Definition bytes_of_ints (l : list Z) : res bytes :=
  mapM_res (fun b => if (0 <=? b) && (b <=? 255)
                     then match Byte.of_N (Z.to_N b) with
                          | Some x => Val x
                          | None => Err ValueError
                          end
                     else Err ValueError) l.

(* ================================================================== *)
(** ** Thresholds and readings *)

Module Thresholds.
Record t : Type := mk {
  moving : option (list (option Z));
  static : option (list (option Z))
}.
End Thresholds.

Module Reading.
Record t : Type := mk {
  timestamp : Z;
  moving : list Z;
  static : list Z;
  target_state : Z;
  moving_target_range : Z;
  moving_target_energy : Z;
  static_target_range : Z;
  static_target_energy : Z;
  detection_distance : Z;
  max_moving_distance : Z;
  max_static_distance : Z
}.

(** [Reading.compare]: a placeholder in the source. *)
Definition compare (self : t) (thresholds : option Thresholds.t) : bool :=
  false.

(** [Reading.new_from_bytes]; [now] is what [datetime.now()] returns when
    the constructor runs.  Evaluation order is the source's: the two gate
    lists first, then the keyword arguments from left to right. *)
Definition new_from_bytes (now : Z) (seq : bytes) : res t :=
  let* movs := mapM_res (fun i => getitem seq (11 + i)) (List.seq 0 12) in
  let* stats := mapM_res (fun i => getitem seq (23 + i)) (List.seq 0 12) in
  let* target_state := getitem seq 0 in
  let moving_target_range := byte_pair_to_int (slice seq 1 3) in
  let* moving_target_energy := getitem seq 3 in
  let static_target_range := byte_pair_to_int (slice seq 4 6) in
  let* static_target_energy := getitem seq 6 in
  let detection_distance := byte_pair_to_int (slice seq 7 9) in
  let* max_moving_distance := getitem seq 9 in
  let* max_static_distance := getitem seq 10 in
  Val {| timestamp := now;
         moving := movs;
         static := stats;
         target_state := target_state;
         moving_target_range := moving_target_range;
         moving_target_energy := moving_target_energy;
         static_target_range := static_target_range;
         static_target_energy := static_target_energy;
         detection_distance := detection_distance;
         max_moving_distance := max_moving_distance;
         max_static_distance := max_static_distance |}.
End Reading.

(* ================================================================== *)
(** ** The bounded history buffer: [collections.deque(maxlen=...)] *)

Module Deque.
Record t (A : Type) : Type := mk {
  maxlen : option nat;
  items : list A
}.
Arguments mk {A} maxlen items.
Arguments maxlen {A} _.
Arguments items {A} _.

(** [deque(maxlen=m)]: [None] is unbounded, a negative bound is refused. *)
Definition new {A} (m : option Z) : res (t A) :=
  match m with
  | None => Val (mk None [])
  | Some z => if z <? 0 then Err ValueError else Val (mk (Some (Z.to_nat z)) [])
  end.

(** [d.append(x)]: the item goes to the right end; when the bound is then
    exceeded the leftmost item is dropped. *)
Definition append {A} (x : A) (d : t A) : t A :=
  let items' := items d ++ [x] in
  match maxlen d with
  | Some m => if (m <? List.length items')%nat
              then mk (maxlen d) (tl items')
              else mk (maxlen d) items'
  | None => mk (maxlen d) items'
  end.

Definition len {A} (d : t A) : nat := List.length (items d).

(** [d[-1]]. *)
Definition last_item {A} (d : t A) : res A :=
  match rev (items d) with
  | x :: _ => Val x
  | [] => Err IndexError
  end.
End Deque.

(* ================================================================== *)
(** ** The serial port

    The port's input is a finite list of events followed by silence: [Some b]
    is a byte that arrives, [None] is a read timeout that expires before the
    next byte arrives.  After the last event every read times out.  The
    output is the list of bytes written so far. *)

Module Serial.
Record t : Type := mk {
  rx : list (option byte);
  tx : bytes;
  timeout : option Z
}.

Definition set_rx (s : t) (evs : list (option byte)) : t :=
  mk evs (tx s) (timeout s).
Definition set_timeout (s : t) (tmo : option Z) : t :=
  mk (rx s) (tx s) tmo.

(** [write(data)]. *)
Definition write (data : bytes) (s : t) : t :=
  mk (rx s) (tx s ++ data) (timeout s).

(** The bytes [read(size)] collects from the event list, and the events
    left: it stops at [size] bytes, at a timeout, or at the end. *)
Fixpoint read_events (size : nat) (evs : list (option byte))
  : bytes * list (option byte) :=
  match size with
  | O => ([], evs)
  | S size' =>
      match evs with
      | [] => ([], [])
      | None :: evs' => ([], evs')
      | Some b :: evs' =>
          let (bs, rest) := read_events size' evs' in (b :: bs, rest)
      end
  end.

Definition read (size : nat) (s : t) : bytes * t :=
  let (bs, rest) := read_events size (rx s) in (bs, set_rx s rest).

(** [reset_input_buffer()]: the events already received are dropped;
    [buffered] says how many that is when the call is made. *)
Definition reset_input_buffer (buffered : nat) (s : t) : t :=
  set_rx s (skipn buffered (rx s)).
End Serial.

(* ================================================================== *)
(** ** The driver object and its monad *)

Record LD2410 : Type := mkLD2410 {
  port : string;
  baud : Z;
  thresholds : option Thresholds.t;
  running : bool;
  stopped : bool;
  buffer : Deque.t Reading.t;
  serial : option Serial.t;
  state : string;
  state_change_time : Z;
  present : option bool;   (* the attribute exists once [run] has set it *)
  clock : Z                (* what [datetime.now()] returns *)
}.

Definition set_serial (d : LD2410) (s : option Serial.t) : LD2410 :=
  mkLD2410 (port d) (baud d) (thresholds d) (running d) (stopped d)
           (buffer d) s (state d) (state_change_time d) (present d) (clock d).
Definition set_buffer (d : LD2410) (b : Deque.t Reading.t) : LD2410 :=
  mkLD2410 (port d) (baud d) (thresholds d) (running d) (stopped d)
           b (serial d) (state d) (state_change_time d) (present d) (clock d).
Definition set_running (d : LD2410) (b : bool) : LD2410 :=
  mkLD2410 (port d) (baud d) (thresholds d) b (stopped d)
           (buffer d) (serial d) (state d) (state_change_time d) (present d) (clock d).
Definition set_stopped (d : LD2410) (b : bool) : LD2410 :=
  mkLD2410 (port d) (baud d) (thresholds d) (running d) b
           (buffer d) (serial d) (state d) (state_change_time d) (present d) (clock d).
Definition set_present (d : LD2410) (b : option bool) : LD2410 :=
  mkLD2410 (port d) (baud d) (thresholds d) (running d) (stopped d)
           (buffer d) (serial d) (state d) (state_change_time d) b (clock d).
Definition set_thresholds (d : LD2410) (t : option Thresholds.t) : LD2410 :=
  mkLD2410 (port d) (baud d) t (running d) (stopped d)
           (buffer d) (serial d) (state d) (state_change_time d) (present d) (clock d).
Definition set_state (d : LD2410) (st : string) (at_time : Z) : LD2410 :=
  mkLD2410 (port d) (baud d) (thresholds d) (running d) (stopped d)
           (buffer d) (serial d) st at_time (present d) (clock d).

Inductive outcome (A : Type) : Type :=
| Ok (a : A) (d : LD2410)
| Raise (e : exn) (d : LD2410)
| Hang.
Arguments Ok {A} a d.
Arguments Raise {A} e d.
Arguments Hang {A}.

Definition M (A : Type) : Type := LD2410 -> outcome A.

Definition ret {A} (a : A) : M A := fun d => Ok a d.
Definition raise {A} (e : exn) : M A := fun d => Raise e d.
Definition hang {A} : M A := fun _ => Hang.
Definition bind {A B} (m : M A) (k : A -> M B) : M B :=
  fun d => match m d with
           | Ok a d' => k a d'
           | Raise e d' => Raise e d'
           | Hang => Hang
           end.
Definition lift {A} (r : res A) : M A :=
  match r with
  | Val a => ret a
  | Err e => raise e
  end.

Notation "x <- m ;; k" := (bind m (fun x => k))
  (at level 61, m at next level, right associativity).
Notation "m ;;; k" := (bind m (fun _ => k))
  (at level 61, right associativity).

(** Access to [self.serial]; calling a method on [None] raises. *)
Definition serial_write (data : bytes) : M unit :=
  fun d => match serial d with
           | Some s => Ok tt (set_serial d (Some (Serial.write data s)))
           | None => Raise AttributeError d
           end.

Definition serial_read (size : nat) : M bytes :=
  fun d => match serial d with
           | Some s => let (bs, s') := Serial.read size s in
                       Ok bs (set_serial d (Some s'))
           | None => Raise AttributeError d
           end.

(* ================================================================== *)
(** ** Class constants and small helpers *)

Definition COMMAND_PREAMBLE : bytes := [xfd; xfc; xfb; xfa].
Definition COMMAND_POSTAMBLE : bytes := [x04; x03; x02; x01].
Definition REPORTING_PREAMBLE : bytes := [xf4; xf3; xf2; xf1].
Definition REPORTING_POSTAMBLE : bytes := [xf8; xf7; xf6; xf5].

Definition VALID_STATES : list string :=
  ["startup"; "waiting_for_eng_ack"; "waiting_for_first_report"; "reporting"]%string.

(** [str(n)] of an [int], as an f-string formats it. *)
Definition str_int (n : Z) : string := NilZero.string_of_int (Z.to_int n).

(** [c == seq[i]] for a byte [c] read from the port. *)
Definition is_at (c : byte) (seq : bytes) (i : nat) : res bool :=
  match nth_error seq i with
  | Some t => Val (Byte.eqb c t)
  | None => Err IndexError
  end.

(** The argument of [_tx_sequence] is a [bytes] object or a list of ints. *)
Inductive sequence : Type :=
| SeqBytes (b : bytes)
| SeqInts (l : list Z).

(* ================================================================== *)
(** ** Construction and state changes *)

Definition change_state (new_state : string) (self : LD2410) : res LD2410 :=
  if existsb (String.eqb new_state) VALID_STATES
  then Val (set_state self new_state (clock self))
  else Err (LD2410Exception
              ("Attempt to enter new state: " ++ new_state
               ++ " that isn't in VALID_STATES")%string).

(** [LD2410.__init__]; the thread initialisation has no modelled effect. *)
Definition __init__ (port : string) (baud : Z) (maxlen : option Z)
    (thresholds : option Thresholds.t) (now : Z) : res LD2410 :=
  let* buf := Deque.new maxlen in
  change_state "startup"%string
    (mkLD2410 port baud thresholds false true buf None EmptyString now None now).

(** [LD2410.__enter__] up to the launch of the worker thread: the port is
    opened unless the driver is in test mode; [incoming] is what the opened
    port is going to receive. *)
Definition __enter__ (incoming : list (option byte)) : M unit :=
  fun d =>
    match serial d with
    | Some _ => Raise SerialException d
    | None =>
        if negb (String.eqb (port d) "test")
        then Ok tt (set_serial d (Some (Serial.mk incoming [] None)))
        else Ok tt d
    end.

Definition read_bytes (length : nat) : M bytes := serial_read length.

(* ================================================================== *)
(** ** The frame encoder: [_tx_sequence] *)

Definition _tx_sequence (sequence : sequence) : M unit :=
  payload <- lift (match sequence with
                   | SeqBytes b => Val b
                   | SeqInts l => list_ints_to_bytes l
                   end) ;;
  serial_write COMMAND_PREAMBLE ;;;
  length_b <- lift (int_to_bytes (Z.of_nat (List.length payload)) 2) ;;
  serial_write length_b ;;;
  serial_write payload ;;;
  serial_write COMMAND_POSTAMBLE.

(* ================================================================== *)
(** ** The frame scanner: [_read_any_message] *)

(** The three local variables of the preamble search. *)
Record scan_state : Type := mk_scan {
  preamble_target_no : nat;
  preamble : bytes;
  target_preamble : bytes
}.

Definition scan_start : scan_state := mk_scan 0 [] [].

(** One pass through the body of the [while True] loop for a byte [c] that
    was read.  The boolean says whether the loop breaks. *)
Definition scan_step (st : scan_state) (c : byte) : res (bool * scan_state) :=
  if (preamble_target_no st =? 0)%nat then
    let* is_command := is_at c COMMAND_PREAMBLE 0 in
    let* is_first := (if is_command then Val true
                      else is_at c REPORTING_PREAMBLE 0) in
    if is_first then
      let* is_report := is_at c REPORTING_PREAMBLE 0 in
      let target := if is_report then REPORTING_PREAMBLE else COMMAND_PREAMBLE in
      Val (false, mk_scan (preamble_target_no st + 1) (preamble st ++ [c]) target)
    else Val (false, st)
  else
    let* same := is_at c (target_preamble st) (preamble_target_no st) in
    if negb same then Val (false, scan_start)
    else
      let no := (preamble_target_no st + 1)%nat in
      Val ((no =? 4)%nat, mk_scan no (preamble st ++ [c]) (target_preamble st)).

Inductive scan_outcome : Type :=
| ScanDone (preamble : bytes) (rest : list (option byte))
| ScanRaise (e : exn) (rest : list (option byte))
| ScanHang.

(** The [while True] loop: each turn reads one byte with [serial.read(1)].
    A timeout is logged and the loop goes on; once the events are used up
    every further read times out, so the loop never ends. *)
Fixpoint scan_preamble (st : scan_state) (evs : list (option byte))
  : scan_outcome :=
  match evs with
  | [] => ScanHang
  | None :: evs' => scan_preamble st evs'
  | Some c :: evs' =>
      match scan_step st c with
      | Err e => ScanRaise e evs'
      | Val (true, st') => ScanDone (preamble st') evs'
      | Val (false, st') => scan_preamble st' evs'
      end
  end.

Definition find_preamble : M bytes :=
  fun d => match serial d with
           | None => Raise AttributeError d
           | Some s =>
               match scan_preamble scan_start (Serial.rx s) with
               | ScanDone pre rest =>
                   Ok pre (set_serial d (Some (Serial.set_rx s rest)))
               | ScanRaise e rest =>
                   Raise e (set_serial d (Some (Serial.set_rx s rest)))
               | ScanHang => Hang
               end
           end.

(** The fixed-size reads after the preamble: length, payload, postamble. *)
Definition read_frame_body (preamble : bytes) : M (bytes * bytes * bytes) :=
  length_raw <- read_bytes 2 ;;
  if negb (List.length length_raw =? 2)%nat then
    raise (LD2410Exception
      "Didn't get two bytes for the message length in the expected time")
  else
    let length := byte_pair_to_int length_raw in
    payload <- read_bytes (Z.to_nat length) ;;
    if negb (Z.of_nat (List.length payload) =? length) then
      raise (LD2410Exception
        ("Payload was short, only received : "
         ++ str_int (Z.of_nat (List.length payload)) ++ " bytes")%string)
    else
      postamble <- read_bytes 4 ;;
      if negb (List.length postamble =? 4)%nat then
        raise (LD2410Exception "Failed to receive the full 4 byte postamble")
      else ret (preamble, payload, postamble).

Definition _read_any_message : M (bytes * bytes * bytes) :=
  preamble <- find_preamble ;;
  read_frame_body preamble.

Definition _flush_serial (buffered : nat) : M unit :=
  fun d => match serial d with
           | Some s =>
               Ok tt (set_serial d (Some (Serial.reset_input_buffer buffered s)))
           | None => Raise AttributeError d
           end.

(* ================================================================== *)
(** ** The retrying receiver: [_rx_sequence] *)

Definition kind_name (report_expected : bool) : string :=
  if report_expected then "report"%string else "command ack"%string.

Definition expected_preamble (report_expected : bool) : bytes :=
  if report_expected then REPORTING_PREAMBLE else COMMAND_PREAMBLE.
Definition expected_postamble (report_expected : bool) : bytes :=
  if report_expected then REPORTING_POSTAMBLE else COMMAND_POSTAMBLE.

Definition rx_failure (report_expected : bool) (retries : Z) : exn :=
  LD2410Exception
    ("Failed to get a message of type " ++ kind_name report_expected
     ++ " after " ++ str_int retries ++ " attempts")%string.

(** The test of the [for] loop's body on one message. *)
Definition right_kind (report_expected : bool) (m : bytes * bytes * bytes)
  : bool :=
  let '(preamble, _, postamble) := m in
  bytes_eqb preamble (expected_preamble report_expected)
  && bytes_eqb postamble (expected_postamble report_expected).

(** [for try_no in range(retries)] with [tries] turns left, then the
    [raise] after the loop. *)
Fixpoint rx_attempts (report_expected : bool) (retries : Z) (tries : nat)
  : M bytes :=
  match tries with
  | O => raise (rx_failure report_expected retries)
  | S tries' =>
      m <- _read_any_message ;;
      if right_kind report_expected m then ret (snd (fst m))
      else rx_attempts report_expected retries tries'
  end.

Definition set_serial_timeout (timeout : Z) : M unit :=
  fun d => match serial d with
           | Some s => Ok tt (set_serial d (Some (Serial.set_timeout s (Some timeout))))
           | None => Ok tt d
           end.

Definition _rx_sequence (report_expected : bool) (retries : Z) (timeout : Z)
  : M bytes :=
  set_serial_timeout timeout ;;;
  rx_attempts report_expected retries (Z.to_nat retries).

(* ================================================================== *)
(** ** The configuration handshake *)

(** [if not resp == list_ints_to_bytes([...]): raise LD2410Exception(msg)]. *)
Definition check_ack (resp : bytes) (ack : list Z) (msg : string) : M unit :=
  expected <- lift (list_ints_to_bytes ack) ;;
  if negb (bytes_eqb resp expected) then raise (LD2410Exception msg)
  else ret tt.

Definition _enter_configuration_mode : M unit :=
  _tx_sequence (SeqInts [0xFF; 0x00; 0x01; 0x00]) ;;;
  resp <- _rx_sequence false 10 2 ;;
  check_ack resp [0xFF; 0x01; 0x00; 0x00; 0x01; 0x00; 0x40; 0x00]
            "Failed to get ack to entering config mode".

Definition _leave_configuration_mode : M unit :=
  _tx_sequence (SeqInts [0xFE; 0x00]) ;;;
  resp <- _rx_sequence false 5 2 ;;
  check_ack resp [0xFE; 0x01; 0x00; 0x00]
            "Failed to get ack to leaving config mode".

Definition _request_firmware_version : M unit :=
  _tx_sequence (SeqInts [0xA0; 0x00]) ;;;
  resp <- _rx_sequence false 3 2 ;;
  ret tt.

Definition _send_reset : M unit :=
  _tx_sequence (SeqInts [0xA3; 0x00]) ;;;
  resp <- _rx_sequence false 3 2 ;;
  check_ack resp [0xA3; 0x01; 0x00; 0x00]
            "Failed to get an ack on the attempt to reset".

Definition _start_engineering_mode : M unit :=
  _tx_sequence (SeqInts [0x62; 0x00]) ;;;
  resp <- _rx_sequence false 10 2 ;;
  check_ack resp [0x62; 0x01; 0x00; 0x00]
            "Failed to get the correct ack for entering engineering mode, instead rx'ed : ".

(* ================================================================== *)
(** ** Readings, presence and the history buffer *)

(** The number of events the port still holds: each turn of the loops below
    that goes round again has used up at least one of them. *)
Definition events_left (d : LD2410) : nat :=
  match serial d with
  | Some s => List.length (Serial.rx s)
  | None => O
  end.

(** The [while True] loop of [_get_next_reading], ending with the payload it
    breaks on.  In test mode the source calls [Reading(moving=..., static=...)]
    without the eight required arguments, which raises [TypeError]. *)
Fixpoint next_report_payload (fuel : nat) : M bytes :=
  match fuel with
  | O => hang
  | S fuel' =>
      fun d =>
        if String.eqb (port d) "test" then Raise TypeError d
        else (seq <- _rx_sequence true 1 2 ;;
              if (List.length seq =? 35)%nat then ret seq
              else next_report_payload fuel') d
  end.

Definition _get_next_reading : M Reading.t :=
  fun d =>
    (seq <- next_report_payload (S (events_left d)) ;;
     fun d' => lift (Reading.new_from_bytes (clock d') seq) d') d.

Definition set_presence_thresholds (levels : option Thresholds.t) : M unit :=
  fun d => Ok tt (set_thresholds d levels).

Definition _test_presence (reading : Reading.t) : M bool :=
  fun d => Ok (Reading.compare reading (thresholds d)) d.

(** [self.buffer.append(read)]. *)
Definition buffer_append (read : Reading.t) : M unit :=
  fun d => Ok tt (set_buffer d (Deque.append read (buffer d))).

(** [get_latest]: the caller waits while the buffer is empty; nothing in the
    caller's own thread refills it, so on an empty buffer the wait does not
    end by itself. *)
Definition get_latest : M Reading.t :=
  fun d =>
    if (Deque.len (buffer d) =? 0)%nat then Hang
    else lift (Deque.last_item (buffer d)) d.

(** Lines 474-477 of [run]: record a reading and evaluate presence. *)
Definition record_reading (read : Reading.t) : M unit :=
  buffer_append read ;;;
  fun d =>
    match thresholds d with
    | Some _ => (p <- _test_presence read ;;
                 fun d' => Ok tt (set_present d' (Some p))) d
    | None => Ok tt d
    end.

(** The [while (self.running)] loop.  Only another thread clears [running];
    within the worker the loop ends by an exception or blocks on a silent
    line. *)
Fixpoint reporting_loop (fuel : nat) : M unit :=
  match fuel with
  | O => hang
  | S fuel' =>
      fun d =>
        if running d then
          (read <- _get_next_reading ;;
           record_reading read ;;;
           reporting_loop fuel') d
        else Ok tt d
  end.

Definition handshake (buffered : nat) : M unit :=
  _enter_configuration_mode ;;;
  _send_reset ;;;
  _flush_serial buffered ;;;
  _enter_configuration_mode ;;;
  _request_firmware_version ;;;
  _start_engineering_mode ;;;
  _leave_configuration_mode.

(** [run]; [buffered] is the number of events sitting in the input buffer
    when it is flushed after the reset. *)
Definition run (buffered : nat) : M unit :=
  (fun d => Ok tt (set_stopped (set_running d true) false)) ;;;
  handshake buffered ;;;
  (fun d => reporting_loop (S (events_left d)) d) ;;;
  fun d => Ok tt (set_stopped d true).

(* ================================================================== *)
(** ** Vocabulary of the statements *)

(** The wire form of a frame of either kind: preamble, two-byte
    little-endian length, payload, postamble. *)
Definition frame_wire (report : bool) (payload : bytes) : res bytes :=
  let* length_b := int_to_bytes (Z.of_nat (List.length payload)) 2 in
  Val (expected_preamble report ++ length_b ++ payload
       ++ expected_postamble report).

(** The driver with its port's pending input replaced by [evs]. *)
Definition with_input (d : LD2410) (s : Serial.t) (evs : list (option byte))
  : LD2410 :=
  set_serial d (Some (Serial.set_rx s evs)).

(** The scanner's variables after the loop has taken the bytes of [noise]
    without breaking: [None] when the loop breaks or raises on the way. *)
Fixpoint scan_over (st : scan_state) (noise : bytes) : option scan_state :=
  match noise with
  | [] => Some st
  | c :: noise' =>
      match scan_step st c with
      | Val (false, st') => scan_over st' noise'
      | _ => None
      end
  end.

(** A byte sequence that has the wire form of some frame inside it. *)
Definition contains_frame (bs : bytes) : Prop :=
  exists before report payload wire after,
    frame_wire report payload = Val wire /\ bs = before ++ wire ++ after.

(** The wire form of several frames of one kind, one after the other. *)
Fixpoint frames_wire (report : bool) (payloads : list bytes) : res bytes :=
  match payloads with
  | [] => Val []
  | p :: payloads' =>
      let* w := frame_wire report p in
      let* ws := frames_wire report payloads' in
      Val (w ++ ws)
  end.

(** [k] successive calls of [_read_any_message] that all return. *)
Fixpoint read_messages (k : nat) (d : LD2410)
  : option (list (bytes * bytes * bytes) * LD2410) :=
  match k with
  | O => Some ([], d)
  | S k' =>
      match _read_any_message d with
      | Ok m d' =>
          match read_messages k' d' with
          | Some (ms, d'') => Some (m :: ms, d'')
          | None => None
          end
      | _ => None
      end
  end.

(** The worker recording a list of readings, oldest first. *)
Fixpoint record_all (reads : list Reading.t) : M unit :=
  match reads with
  | [] => ret tt
  | r :: reads' => record_reading r ;;; record_all reads'
  end.

(** The sensor of the example program, [LD2410("COM7", maxlen=20)], once its
    port is open with [incoming] still to arrive. *)
Definition example_sensor (incoming : list (option byte)) : LD2410 :=
  mkLD2410 "COM7" 256000 None false true (Deque.mk (Some 20%nat) [])
           (Some (Serial.mk incoming [] None)) "startup" 0 None 0.

(** The report payload of the decoder example: eleven header bytes and the
    two all-zero gate arrays. *)
Definition example_payload : bytes :=
  [x00; x32; x00; x4b; x1e; x00; x64; x00; xc8; x00; x0a] ++ repeat x00 24.

(** [d'] differs from [d] at most in the pending input and the timeout of
    the port: every other attribute, and what has been written, is the same. *)
Definition same_but_input (d d' : LD2410) : Prop :=
  set_serial d' None = set_serial d None
  /\ option_map Serial.tx (serial d') = option_map Serial.tx (serial d).

(** A method that touches nothing but the port's input side. *)
Definition keeps {A} (m : M A) : Prop :=
  forall d, match m d with
            | Ok _ d' | Raise _ d' => same_but_input d d'
            | Hang => True
            end.

(** With no preamble byte matched, the scanner's variables are the initial
    ones. *)
Definition scan_wf (st : scan_state) : Prop :=
  preamble_target_no st = 0%nat -> st = scan_start.

(* ================================================================== *)
(** ** Further functions of the module *)

(** [f"0x{i:02x}"]: lowercase hexadecimal, padded with a zero to two
    characters. *)
Definition format_02x (i : Z) : string :=
  let digits := HexadecimalString.NilZero.string_of_int (Z.to_hex_int i) in
  if (String.length digits <? 2)%nat then ("0" ++ digits)%string else digits.

(** [bytes_to_hex]: the items ["0x.."] joined by commas. *)
Definition bytes_to_hex (inp : bytes) : string :=
  let digits := bytes_to_list_ints inp in
  let items := map (fun i => ("0x" ++ format_02x i)%string) digits in
  String.concat "," items.

(* ================================================================== *)
(** ** Further vocabulary of the statements *)

(** The wire form of a frame whose length fits the two-byte field, and the
    empty sequence otherwise. *)
Definition frame_bytes (report : bool) (payload : bytes) : bytes :=
  match frame_wire report payload with
  | Val wire => wire
  | Err _ => []
  end.

(** The bytes [bs] arriving with [gaps] read timeouts before each of them
    (no timeout where [gaps] has run out). *)
Fixpoint with_gaps (gaps : list nat) (bs : bytes) : list (option byte) :=
  match bs with
  | [] => []
  | b :: bs' =>
      match gaps with
      | [] => Some b :: with_gaps [] bs'
      | g :: gaps' => repeat None g ++ Some b :: with_gaps gaps' bs'
      end
  end.

(** What the variables of the preamble search can be: the initial ones, or
    one to three bytes of one of the two preambles matched so far. *)
Definition scan_inv (st : scan_state) : Prop :=
  st = scan_start
  \/ exists (report : bool) (k : nat),
       (1 <= k <= 3)%nat
       /\ st = mk_scan k (firstn k (expected_preamble report))
                       (expected_preamble report).

(** The most recent [n] elements of a list. *)
Definition last_n {A} (n : nat) (l : list A) : list A :=
  skipn (List.length l - n) l.


(** The item [bytes_to_hex] prints for a byte, read back. *)
Definition hex_item_byte (item : string) : option byte :=
  find (fun b => String.eqb ("0x" ++ format_02x (int_of_byte b)) item)
       (map (fun n => match Byte.of_nat n with Some b => b | None => x00 end)
            (List.seq 0 256)).

(** The driver after a command frame [written] has gone out and the answer
    has been read with the handshake's timeout of 2, [rest] being the input
    still pending. *)
Definition after_exchange (d : LD2410) (s : Serial.t) (written : bytes)
    (rest : list (option byte)) : LD2410 :=
  set_serial d (Some (Serial.mk rest (Serial.tx s ++ written) (Some 2))).

(* ================================================================== *)
(** * Properties *)

(* ================================================================== *)
(** ** Bytes and little-endian integers *)

Lemma int_of_byte_range (b : byte) : 0 <= int_of_byte b <= 255.
Proof.
  unfold int_of_byte. pose proof (Byte.to_N_bounded b). lia.
Qed.

Lemma byte_of_digit (n : Z) :
  exists b, Byte.of_N (Z.to_N (n mod 256)) = Some b /\ int_of_byte b = n mod 256.
Proof.
  pose proof (Z.mod_pos_bound n 256 ltac:(lia)) as Hm.
  destruct (Byte.of_N (Z.to_N (n mod 256))) as [b|] eqn:E.
  - exists b. split; [reflexivity|].
    unfold int_of_byte. rewrite (Byte.to_of_N _ E). lia.
  - apply Byte.of_N_None_iff in E. lia.
Qed.

Lemma byte_of_small (n : Z) :
  0 <= n <= 255 ->
  exists b, Byte.of_N (Z.to_N n) = Some b /\ int_of_byte b = n.
Proof.
  intros Hn. destruct (byte_of_digit n) as (b & Hb & Hi).
  rewrite Z.mod_small in Hb, Hi by lia. eauto.
Qed.

Lemma to_bytes_le_sound (len : nat) :
  forall n bs, 0 <= n -> to_bytes_le len n = Val bs ->
               byte_pair_to_int bs = n /\ List.length bs = len.
Proof.
  induction len as [|len IH]; intros n bs Hn; simpl.
  - destruct (n =? 0) eqn:E; [|discriminate].
    intros [= <-]. apply Z.eqb_eq in E. auto.
  - destruct (byte_of_digit n) as (b & -> & Hb).
    destruct (to_bytes_le len (n / 256)) as [bs'|e] eqn:E; simpl; [|discriminate].
    intros [= <-]. apply IH in E; [|apply Z.div_pos; lia].
    destruct E as [E1 E2]. cbn [byte_pair_to_int List.length].
    rewrite E1, Hb, E2. split; [|reflexivity].
    pose proof (Z.div_mod n 256 ltac:(lia)). lia.
Qed.

Lemma to_bytes_le_fits (len : nat) :
  forall n, 0 <= n < 256 ^ Z.of_nat len -> exists bs, to_bytes_le len n = Val bs.
Proof.
  induction len as [|len IH]; intros n Hn.
  - simpl in Hn. assert (n = 0) as -> by lia. exists []. reflexivity.
  - cbn [to_bytes_le]. destruct (byte_of_digit n) as (b & -> & _).
    destruct (IH (n / 256)) as [bs ->].
    + rewrite Nat2Z.inj_succ, Z.pow_succ_r in Hn by lia.
      split; [apply Z.div_pos; lia|]. apply Z.div_lt_upper_bound; lia.
    + simpl. eauto.
Qed.

(** A two-byte length field holds every length below 65536 and reads back
    as that length. *)
Lemma length_field (n : nat) :
  Z.of_nat n < 65536 ->
  exists lo hi, int_to_bytes (Z.of_nat n) 2 = Val [lo; hi]
                /\ byte_pair_to_int [lo; hi] = Z.of_nat n.
Proof.
  intros Hn. unfold int_to_bytes.
  destruct (Z.ltb_spec (Z.of_nat n) 0) as [?|_]; [lia|].
  destruct (to_bytes_le_fits 2 (Z.of_nat n)) as [bs E];
    [change (256 ^ Z.of_nat 2) with 65536; lia|].
  destruct (to_bytes_le_sound 2 _ _ (Nat2Z.is_nonneg n) E) as [Hv Hl].
  destruct bs as [|lo [|hi [|? ?]]]; try discriminate.
  exists lo, hi. rewrite E. auto.
Qed.

Lemma bytes_eqb_refl (b : bytes) : bytes_eqb b b = true.
Proof. unfold bytes_eqb. destruct (list_eq_dec _ b b); congruence. Qed.

Lemma bytes_eqb_eq (a b : bytes) : bytes_eqb a b = true <-> a = b.
Proof.
  unfold bytes_eqb. destruct (list_eq_dec _ a b); split; congruence.
Qed.

(** The conversion loop agrees with the element-wise conversion. *)
Lemma list_ints_to_bytes_from_spec (inp : list Z) :
  Forall (fun b => 0 <= b <= 255) inp ->
  forall acc, exists bs, bytes_of_ints inp = Val bs
                         /\ list_ints_to_bytes_from acc inp = Val (acc ++ bs).
Proof.
  induction 1 as [|b inp Hb _ IH]; intros acc.
  - exists []. simpl. rewrite app_nil_r. auto.
  - destruct (byte_of_small b Hb) as (x & Hx & Hi).
    destruct (IH (acc ++ [x])) as (bs & E1 & E2).
    exists (x :: bs). unfold bytes_of_ints in *. cbn [mapM_res list_ints_to_bytes_from].
    rewrite E1.
    destruct (Z.leb_spec 0 b); [|lia]. destruct (Z.leb_spec b 255); [|lia].
    cbn [andb]. rewrite Hx. split; [reflexivity|].
    unfold int_to_bytes. destruct (Z.ltb_spec b 0); [lia|].
    cbn [to_bytes_le]. rewrite Z.mod_small by lia. rewrite Hx.
    rewrite Z.div_small by lia. simpl. rewrite E2, <- app_assoc. reflexivity.
Qed.

Lemma list_ints_to_bytes_spec (inp : list Z) :
  Forall (fun b => 0 <= b <= 255) inp ->
  exists bs, bytes_of_ints inp = Val bs /\ list_ints_to_bytes inp = Val bs.
Proof.
  intros H. destruct (list_ints_to_bytes_from_spec inp H []) as (bs & E1 & E2).
  exists bs. auto.
Qed.

(* ================================================================== *)
(** ** Reading from the event list *)

Lemma read_events_exact (bs : bytes) (rest : list (option byte)) :
  Serial.read_events (List.length bs) (map Some bs ++ rest) = (bs, rest).
Proof.
  induction bs as [|b bs IH]; simpl; [reflexivity|]. rewrite IH. reflexivity.
Qed.

Lemma read_events_length (size : nat) :
  forall evs bs rest, Serial.read_events size evs = (bs, rest) ->
                      (List.length bs <= size)%nat.
Proof.
  induction size as [|size IH]; intros evs bs rest; simpl.
  - intros [= <- _]. simpl. lia.
  - destruct evs as [|[b|] evs].
    + intros [= <- _]. simpl. lia.
    + destruct (Serial.read_events size evs) as [bs' rest'] eqn:E.
      intros [= <- _]. apply IH in E. simpl. lia.
    + intros [= <- _]. simpl. lia.
Qed.

(** A full read took exactly the bytes at the head of the events. *)
Lemma read_events_full (size : nat) :
  forall evs bs rest, Serial.read_events size evs = (bs, rest) ->
                      List.length bs = size ->
                      evs = map Some bs ++ rest.
Proof.
  induction size as [|size IH]; intros evs bs rest; simpl.
  - intros [= <- <-] _. reflexivity.
  - destruct evs as [|[b|] evs].
    + intros [= <- _]. discriminate.
    + destruct (Serial.read_events size evs) as [bs' rest'] eqn:E.
      intros [= <- <-] [= Hl]. simpl. f_equal. eauto.
    + intros [= <- _]. discriminate.
Qed.

(** A read that meets a timeout, or the end of the events, before [size]
    bytes returns only the bytes that came first. *)
Lemma read_events_short (size : nat) :
  forall bs tail,
    (List.length bs < size)%nat ->
    tail = [] \/ (exists t, tail = None :: t) ->
    fst (Serial.read_events size (map Some bs ++ tail)) = bs.
Proof.
  induction size as [|size IH]; intros bs tail Hl Ht; [lia|].
  destruct bs as [|b bs]; simpl.
  - destruct Ht as [->|[t ->]]; reflexivity.
  - specialize (IH bs tail ltac:(simpl in Hl; lia) Ht).
    destruct (Serial.read_events size (map Some bs ++ tail)) as [bs' rest].
    simpl in *. congruence.
Qed.

(* ================================================================== *)
(** ** Writing and reading one frame *)

Lemma scan_finds_preamble (report : bool) (evs : list (option byte)) :
  scan_preamble scan_start (map Some (expected_preamble report) ++ evs)
  = ScanDone (expected_preamble report) evs.
Proof. destruct report; reflexivity. Qed.

Lemma frame_wire_inv (report : bool) (payload wire : bytes) :
  frame_wire report payload = Val wire ->
  exists lo hi,
    wire = expected_preamble report ++ [lo; hi] ++ payload
           ++ expected_postamble report
    /\ byte_pair_to_int [lo; hi] = Z.of_nat (List.length payload).
Proof.
  unfold frame_wire, int_to_bytes.
  destruct (Z.of_nat (List.length payload) <? 0); [discriminate|].
  destruct (to_bytes_le 2 _) as [lb|] eqn:E; [|discriminate].
  destruct (to_bytes_le_sound 2 _ _ (Nat2Z.is_nonneg _) E) as [Hv Hl].
  destruct lb as [|lo [|hi [|? ?]]]; try discriminate.
  simpl. intros [= <-]. eauto.
Qed.

Lemma frame_wire_fits (report : bool) (payload : bytes) :
  Z.of_nat (List.length payload) < 65536 ->
  exists wire, frame_wire report payload = Val wire.
Proof.
  intros H. destruct (length_field _ H) as (lo & hi & E & _).
  unfold frame_wire. rewrite E. simpl. eauto.
Qed.

(** Equations of the monad. *)
Lemma bind_ok {A B} (m : M A) (k : A -> M B) (d d' : LD2410) (a : A) :
  m d = Ok a d' -> bind m k d = k a d'.
Proof. unfold bind. intros ->. reflexivity. Qed.

Lemma bind_raise {A B} (m : M A) (k : A -> M B) (d d' : LD2410) (e : exn) :
  m d = Raise e d' -> bind m k d = Raise e d'.
Proof. unfold bind. intros ->. reflexivity. Qed.

Lemma bind_ret {A B} (a : A) (k : A -> M B) (d : LD2410) :
  bind (ret a) k d = k a d.
Proof. reflexivity. Qed.

Lemma bind_hang {A B} (m : M A) (k : A -> M B) (d : LD2410) :
  m d = Hang -> bind m k d = Hang.
Proof. unfold bind. intros ->. reflexivity. Qed.

Lemma read_bytes_at (bs : bytes) (rest : list (option byte))
    (d : LD2410) (s : Serial.t) :
  serial d = Some s ->
  Serial.rx s = map Some bs ++ rest ->
  read_bytes (List.length bs) d = Ok bs (with_input d s rest).
Proof.
  intros Hs Hrx. unfold read_bytes, serial_read, Serial.read.
  rewrite Hs, Hrx, read_events_exact. reflexivity.
Qed.

Lemma find_preamble_at (report : bool) (evs : list (option byte))
    (d : LD2410) (s : Serial.t) :
  serial d = Some s ->
  Serial.rx s = map Some (expected_preamble report) ++ evs ->
  find_preamble d = Ok (expected_preamble report) (with_input d s evs).
Proof.
  intros Hs Hrx. unfold find_preamble.
  rewrite Hs, Hrx, scan_finds_preamble. reflexivity.
Qed.

Lemma read_frame_body_at (pre payload post : bytes) (lo hi : byte)
    (rest : list (option byte)) (d : LD2410) (s : Serial.t) :
  serial d = Some s ->
  Serial.rx s = map Some ([lo; hi] ++ payload ++ post) ++ rest ->
  byte_pair_to_int [lo; hi] = Z.of_nat (List.length payload) ->
  List.length post = 4%nat ->
  read_frame_body pre d = Ok (pre, payload, post) (with_input d s rest).
Proof.
  intros Hs Hrx Hlen H4. unfold read_frame_body.
  rewrite map_app, <- app_assoc in Hrx.
  rewrite (bind_ok _ _ _ _ _ (read_bytes_at [lo; hi] _ d s Hs Hrx)).
  cbn [List.length Nat.eqb negb]. rewrite Hlen, Nat2Z.id.
  rewrite map_app, <- app_assoc.
  rewrite (bind_ok _ _ _ _ _
             (read_bytes_at payload _ (with_input d s _) _ eq_refl eq_refl)).
  rewrite Z.eqb_refl. cbn [negb]. rewrite <- H4.
  rewrite (bind_ok _ _ _ _ _
             (read_bytes_at post _ (with_input _ _ _) _ eq_refl eq_refl)).
  rewrite Nat.eqb_refl. reflexivity.
Qed.

(** The scanner returns a frame that sits at the head of the input. *)
Lemma read_frame_wire (report : bool) (payload wire : bytes)
    (rest : list (option byte)) (d : LD2410) (s : Serial.t) :
  frame_wire report payload = Val wire ->
  serial d = Some s ->
  Serial.rx s = map Some wire ++ rest ->
  _read_any_message d
  = Ok (expected_preamble report, payload, expected_postamble report)
       (with_input d s rest).
Proof.
  intros Hw Hs Hrx.
  destruct (frame_wire_inv _ _ _ Hw) as (lo & hi & -> & Hlen).
  rewrite map_app, <- app_assoc in Hrx.
  unfold _read_any_message.
  rewrite (bind_ok _ _ _ _ _ (find_preamble_at report _ d s Hs Hrx)).
  apply (read_frame_body_at _ payload (expected_postamble report) lo hi rest
           (with_input d s _) _ eq_refl eq_refl Hlen).
  destruct report; reflexivity.
Qed.

(** [_tx_sequence] writes the wire form of a command frame. *)
Lemma serial_write_at (data : bytes) (d : LD2410) (s : Serial.t) :
  serial d = Some s ->
  serial_write data d = Ok tt (set_serial d (Some (Serial.write data s))).
Proof. unfold serial_write. intros ->. reflexivity. Qed.

Lemma tx_bytes_writes_frame (body wire : bytes) (d : LD2410) (s : Serial.t) :
  frame_wire false body = Val wire ->
  serial d = Some s ->
  _tx_sequence (SeqBytes body) d
  = Ok tt (set_serial d (Some (Serial.write wire s))).
Proof.
  intros Hw Hs. unfold frame_wire in Hw.
  destruct (int_to_bytes _ 2) as [length_b|] eqn:E; [|discriminate].
  injection Hw as <-.
  unfold _tx_sequence. cbn [lift]. rewrite bind_ret.
  rewrite (bind_ok _ _ _ _ _ (serial_write_at _ d s Hs)).
  rewrite E. cbn [lift]. rewrite bind_ret.
  erewrite bind_ok by (apply serial_write_at; reflexivity).
  erewrite bind_ok by (apply serial_write_at; reflexivity).
  erewrite serial_write_at by reflexivity.
  unfold Serial.write, set_serial. cbn.
  rewrite <- !app_assoc. reflexivity.
Qed.

Lemma example_sensor_built (incoming : list (option byte)) :
  exists d0, __init__ "COM7" 256000 (Some 20) None 0 = Val d0
             /\ __enter__ incoming d0 = Ok tt (example_sensor incoming).
Proof. eexists. split; reflexivity. Qed.

(* ================================================================== *)
(** ** The preamble search over noise *)

Lemma scan_step_wf (st st' : scan_state) (c : byte) (b : bool) :
  scan_wf st -> scan_step st c = Val (b, st') -> scan_wf st'.
Proof.
  unfold scan_wf, scan_step. intros Hwf.
  destruct (Nat.eqb_spec (preamble_target_no st) 0) as [E|E].
  - rewrite (Hwf E). cbn.
    destruct (Byte.eqb c xfd); cbn.
    + destruct (Byte.eqb c xf4); intros [= _ <-]; discriminate.
    + destruct (Byte.eqb c xf4); cbn; intros [= _ <-]; [discriminate|auto].
  - destruct (is_at c _ _) as [same|]; cbn; [|discriminate].
    destruct same; cbn; intros [= _ <-]; cbn; [lia|auto].
Qed.

Lemma scan_over_wf (noise : bytes) :
  forall st st', scan_wf st -> scan_over st noise = Some st' -> scan_wf st'.
Proof.
  induction noise as [|c noise IH]; intros st st' Hwf; simpl.
  - intros [= <-]. exact Hwf.
  - destruct (scan_step st c) as [[[|] st1]|] eqn:E; try discriminate.
    apply IH. eapply scan_step_wf; eauto.
Qed.

Lemma scan_over_skip (noise : bytes) :
  forall st st' evs,
    scan_over st noise = Some st' ->
    scan_preamble st (map Some noise ++ evs) = scan_preamble st' evs.
Proof.
  induction noise as [|c noise IH]; intros st st' evs; simpl.
  - intros [= <-]. reflexivity.
  - destruct (scan_step st c) as [[[|] st1]|]; try discriminate.
    apply IH.
Qed.

(** Noise that leaves no partial match pending is skipped whole. *)
Lemma scan_skips_idle_noise (noise : bytes) (st : scan_state)
    (evs : list (option byte)) :
  scan_over scan_start noise = Some st ->
  preamble_target_no st = 0%nat ->
  scan_preamble scan_start (map Some noise ++ evs)
  = scan_preamble scan_start evs.
Proof.
  intros Hover Hidle. rewrite (scan_over_skip _ _ _ _ Hover).
  rewrite (scan_over_wf noise scan_start st) by (auto; intros _; reflexivity).
  reflexivity.
Qed.

(** Bytes that start neither preamble never start a match. *)
Lemma quiet_noise_keeps_idle (noise : bytes) :
  Forall (fun c => c <> xfd /\ c <> xf4) noise ->
  scan_over scan_start noise = Some scan_start.
Proof.
  induction 1 as [|c noise [Hc Hr] _ IH]; [reflexivity|].
  cbn [scan_over]. unfold scan_step. cbn.
  destruct (Byte.eqb c xfd) eqn:E1; [apply Byte.byte_dec_bl in E1; contradiction|].
  destruct (Byte.eqb c xf4) eqn:E2; [apply Byte.byte_dec_bl in E2; contradiction|].
  cbn. exact IH.
Qed.

Lemma find_preamble_skips (noise : bytes) (st : scan_state)
    (evs : list (option byte)) (d : LD2410) (s : Serial.t) :
  scan_over scan_start noise = Some st ->
  preamble_target_no st = 0%nat ->
  serial d = Some s ->
  Serial.rx s = map Some noise ++ evs ->
  find_preamble d = find_preamble (with_input d s evs).
Proof.
  intros Hover Hidle Hs Hrx. unfold find_preamble at 1. rewrite Hs, Hrx.
  rewrite (scan_skips_idle_noise _ _ _ Hover Hidle).
  unfold find_preamble, with_input. cbn.
  destruct (scan_preamble scan_start evs); reflexivity.
Qed.

Lemma frame_wire_length (report : bool) (payload wire : bytes) :
  frame_wire report payload = Val wire ->
  List.length wire = (10 + List.length payload)%nat.
Proof.
  intros H. destruct (frame_wire_inv _ _ _ H) as (lo & hi & -> & _).
  rewrite !length_app. destruct report; simpl; lia.
Qed.

(* ================================================================== *)
(** ** Frame round trip *)

(** C1. For every command body whose length fits in 16 bits, [_tx_sequence]
    writes command preamble, two-byte little-endian length, body and command
    postamble, and [_read_any_message], fed those bytes, returns the body
    unchanged as the payload (between the command preamble and postamble). *)
Theorem tx_then_read_round_trip (body : bytes) (d : LD2410) (s : Serial.t) :
  Z.of_nat (List.length body) < 65536 ->
  serial d = Some s ->
  exists lo hi wire,
    wire = COMMAND_PREAMBLE ++ [lo; hi] ++ body ++ COMMAND_POSTAMBLE
    /\ byte_pair_to_int [lo; hi] = Z.of_nat (List.length body)
    /\ _tx_sequence (SeqBytes body) d
       = Ok tt (set_serial d (Some (Serial.write wire s)))
    /\ forall (d' : LD2410) (s' : Serial.t) (rest : list (option byte)),
         serial d' = Some s' ->
         Serial.rx s' = map Some wire ++ rest ->
         _read_any_message d'
         = Ok (COMMAND_PREAMBLE, body, COMMAND_POSTAMBLE) (with_input d' s' rest).
Proof.
  intros Hlen Hs.
  destruct (frame_wire_fits false body Hlen) as [wire Hw].
  destruct (frame_wire_inv _ _ _ Hw) as (lo & hi & Hwire & Hv).
  exists lo, hi, wire. repeat split; auto.
  - apply tx_bytes_writes_frame; assumption.
  - intros d' s' rest Hs' Hrx.
    apply (read_frame_wire false body wire rest d' s' Hw Hs' Hrx).
Qed.

Lemma tx_then_read_round_trip_witness :
  exists lo hi wire,
    wire = COMMAND_PREAMBLE ++ [lo; hi] ++ [xff; x00; x01; x00]
           ++ COMMAND_POSTAMBLE
    /\ byte_pair_to_int [lo; hi] = 4
    /\ _tx_sequence (SeqBytes [xff; x00; x01; x00]) (example_sensor [])
       = Ok tt (set_serial (example_sensor [])
                           (Some (Serial.write wire (Serial.mk [] [] None))))
    /\ forall (d' : LD2410) (s' : Serial.t) (rest : list (option byte)),
         serial d' = Some s' ->
         Serial.rx s' = map Some wire ++ rest ->
         _read_any_message d'
         = Ok (COMMAND_PREAMBLE, [xff; x00; x01; x00], COMMAND_POSTAMBLE)
              (with_input d' s' rest).
Proof.
  apply (tx_then_read_round_trip [xff; x00; x01; x00] (example_sensor [])
           (Serial.mk [] [] None)).
  - simpl. lia.
  - reflexivity.
Defined.

(* ================================================================== *)
(** ** The report decoder on the example payload *)

Lemma example_payload_ranges (now : Z) :
  exists r, Reading.new_from_bytes now example_payload = Val r
            /\ Reading.detection_distance r = 51200
            /\ Reading.max_moving_distance r = 0.
Proof. eexists. repeat split. Qed.

(** C2 (as the code decodes it). The 35-byte payload
    00 32 00 4B 1E 00 64 00 C8 00 0A followed by 24 zero bytes decodes to
    target_state 0, moving_target_range 50, moving_target_energy 75,
    static_target_range 30, static_target_energy 100, detection_distance
    51200 (bytes 7 and 8 are 00 C8, little-endian), max_moving_distance 0
    (byte 9), max_static_distance 10 (byte 10) and two all-zero 12-element
    gate arrays. *)
Theorem decode_example_payload (now : Z) :
  List.length example_payload = 35%nat
  /\ Reading.new_from_bytes now example_payload
     = Val {| Reading.timestamp := now;
              Reading.moving := repeat 0 12;
              Reading.static := repeat 0 12;
              Reading.target_state := 0;
              Reading.moving_target_range := 50;
              Reading.moving_target_energy := 75;
              Reading.static_target_range := 30;
              Reading.static_target_energy := 100;
              Reading.detection_distance := 51200;
              Reading.max_moving_distance := 0;
              Reading.max_static_distance := 10 |}.
Proof. split; reflexivity. Qed.

(** The decoded example does not have detection_distance 200 and
    max_moving_distance 10. *)
Lemma example_payload_is_not_200_and_10 :
  ~ (exists r,
        Reading.new_from_bytes 0 example_payload = Val r
        /\ Reading.target_state r = 0
        /\ Reading.moving_target_range r = 50
        /\ Reading.moving_target_energy r = 75
        /\ Reading.static_target_range r = 30
        /\ Reading.static_target_energy r = 100
        /\ Reading.detection_distance r = 200
        /\ Reading.max_moving_distance r = 10
        /\ Reading.moving r = repeat 0 12
        /\ Reading.static r = repeat 0 12).
Proof.
  intros (r & Hr & _ & _ & _ & _ & _ & Hd & _).
  destruct (example_payload_ranges 0) as (r' & E & Hd' & _).
  rewrite E in Hr. injection Hr as <-. rewrite Hd' in Hd. discriminate Hd.
Qed.

(* ================================================================== *)
(** ** Noise before a frame *)

(** C3 (as the code behaves). For every byte sequence that leaves the
    preamble search with no partial match pending -- any sequence without the
    bytes FD and F4 is one -- prepending it to a valid frame of either kind
    does not change what the frame scanner returns: it skips the noise and
    returns the payload it returns for the frame alone. *)
Theorem noise_before_frame (noise : bytes) (st : scan_state)
    (report : bool) (payload wire : bytes) (rest : list (option byte))
    (d : LD2410) (s : Serial.t) :
  scan_over scan_start noise = Some st ->
  preamble_target_no st = 0%nat ->
  frame_wire report payload = Val wire ->
  serial d = Some s ->
  Serial.rx s = map Some (noise ++ wire) ++ rest ->
  _read_any_message d
  = Ok (expected_preamble report, payload, expected_postamble report)
       (with_input d s rest)
  /\ _read_any_message d
     = _read_any_message (with_input d s (map Some wire ++ rest)).
Proof.
  intros Hover Hidle Hw Hs Hrx.
  rewrite map_app, <- app_assoc in Hrx.
  assert (_read_any_message d
          = _read_any_message (with_input d s (map Some wire ++ rest))) as E.
  { unfold _read_any_message, bind.
    rewrite (find_preamble_skips _ _ _ _ _ Hover Hidle Hs Hrx). reflexivity. }
  split; [|exact E]. rewrite E.
  apply (read_frame_wire report payload wire rest
           (with_input d s (map Some wire ++ rest))
           (Serial.set_rx s (map Some wire ++ rest)) Hw eq_refl eq_refl).
Qed.

Lemma noise_before_frame_witness :
  let noise := [x00; xfd; x17; xf4; xf3; x00] in
  let wire := [xf4; xf3; xf2; xf1; x02; x00; xaa; xbb; xf8; xf7; xf6; xf5] in
  let d := example_sensor (map Some (noise ++ wire) ++ [Some x55]) in
  let s := Serial.mk (map Some (noise ++ wire) ++ [Some x55]) [] None in
  _read_any_message d
  = Ok (expected_preamble true, [xaa; xbb], expected_postamble true)
       (with_input d s [Some x55])
  /\ _read_any_message d
     = _read_any_message (with_input d s (map Some wire ++ [Some x55])).
Proof.
  cbv zeta.
  apply (noise_before_frame [x00; xfd; x17; xf4; xf3; x00] scan_start true
           [xaa; xbb]); reflexivity.
Defined.

Lemma short_noise_has_no_frame (bs : bytes) :
  (List.length bs < 10)%nat -> ~ contains_frame bs.
Proof.
  intros Hl (before & report & payload & wire & after & Hw & ->).
  apply frame_wire_length in Hw. rewrite !length_app in Hl. lia.
Qed.

(** A noise byte FD in front of a command frame: the noise holds no frame,
    the frame alone is decoded, and behind the noise it is missed. *)
Lemma noise_byte_hides_frame :
  let noise := [xfd] in
  let payload := [xff; x00; x01; x00] in
  let wire := COMMAND_PREAMBLE ++ [x04; x00] ++ payload ++ COMMAND_POSTAMBLE in
  frame_wire false payload = Val wire
  /\ ~ contains_frame noise
  /\ _read_any_message (example_sensor (map Some wire))
     = Ok (COMMAND_PREAMBLE, payload, COMMAND_POSTAMBLE) (example_sensor [])
  /\ _read_any_message (example_sensor (map Some (noise ++ wire))) = Hang.
Proof.
  cbv zeta. repeat split.
  apply short_noise_has_no_frame. simpl. lia.
Qed.

(* ================================================================== *)
(** ** Presence *)

(** C9. For every reading and every thresholds value (also none at all),
    [Reading.compare] returns false, and so does the driver's presence test
    whatever thresholds it holds. *)
Theorem presence_is_always_false (r : Reading.t) (t : option Thresholds.t)
    (d : LD2410) :
  Reading.compare r t = false /\ _test_presence r d = Ok false d.
Proof. split; reflexivity. Qed.

(* ================================================================== *)
(** ** The two inputs of the frame encoder *)

(** C10. For every list of integers in 0..255, [_tx_sequence] on the list
    does what it does on the bytes object formed from the list: the same
    bytes are written, from every state of the driver. *)
Theorem tx_ints_as_bytes (l : list Z) :
  Forall (fun b => 0 <= b <= 255) l ->
  exists bs, bytes_of_ints l = Val bs
             /\ forall d, _tx_sequence (SeqInts l) d = _tx_sequence (SeqBytes bs) d.
Proof.
  intros Hl. destruct (list_ints_to_bytes_spec l Hl) as (bs & E1 & E2).
  exists bs. split; [exact E1|]. intros d.
  unfold _tx_sequence. rewrite E2. reflexivity.
Qed.

Lemma tx_ints_as_bytes_witness :
  exists bs, bytes_of_ints [0xFF; 0x00; 0x01; 0x00] = Val bs
             /\ forall d, _tx_sequence (SeqInts [0xFF; 0x00; 0x01; 0x00]) d
                          = _tx_sequence (SeqBytes bs) d.
Proof.
  apply (tx_ints_as_bytes [0xFF; 0x00; 0x01; 0x00]).
  repeat constructor; lia.
Defined.

(* ================================================================== *)
(** ** The retrying receiver *)

Lemma rx_attempts_skip_wrong (report_expected : bool) (retries : Z)
    (wrong : list (bytes * bytes * bytes)) :
  forall (k : nat) (d0 d1 : LD2410),
    read_messages (List.length wrong) d0 = Some (wrong, d1) ->
    Forall (fun m => right_kind report_expected m = false) wrong ->
    rx_attempts report_expected retries (List.length wrong + k) d0
    = rx_attempts report_expected retries k d1.
Proof.
  induction wrong as [|m wrong IH]; intros k d0 d1; simpl.
  - intros [= <-] _. reflexivity.
  - destruct (_read_any_message d0) as [m' d'| |] eqn:E; try discriminate.
    destruct (read_messages (List.length wrong) d') as [[ms d'']|] eqn:E';
      try discriminate.
    intros [= -> -> ->] Hall. inversion Hall as [|? ? Hm Hrest]; subst.
    rewrite (bind_ok _ _ _ _ _ E), Hm. apply IH; assumption.
Qed.




(* ================================================================== *)
(** ** What receiving leaves untouched *)

Lemma same_but_input_refl (d : LD2410) : same_but_input d d.
Proof. split; reflexivity. Qed.

Lemma same_but_input_trans (d1 d2 d3 : LD2410) :
  same_but_input d1 d2 -> same_but_input d2 d3 -> same_but_input d1 d3.
Proof. intros [A1 B1] [A2 B2]. split; congruence. Qed.

Lemma same_but_input_set (d : LD2410) (s : Serial.t)
    (evs : list (option byte)) (tmo : option Z) :
  serial d = Some s ->
  same_but_input d (set_serial d (Some (Serial.mk evs (Serial.tx s) tmo))).
Proof. intros Hs. split; [reflexivity|]. rewrite Hs. reflexivity. Qed.

Lemma same_but_input_buffer (d d' : LD2410) :
  same_but_input d d' ->
  buffer d' = buffer d /\ running d' = running d /\ stopped d' = stopped d.
Proof.
  intros [H _]. repeat split.
  - exact (f_equal buffer H).
  - exact (f_equal running H).
  - exact (f_equal stopped H).
Qed.

Lemma keeps_ret {A} (a : A) : keeps (ret a).
Proof. intros d. apply same_but_input_refl. Qed.

Lemma keeps_raise {A} (e : exn) : keeps (@raise A e).
Proof. intros d. apply same_but_input_refl. Qed.

Lemma keeps_bind {A B} (m : M A) (k : A -> M B) :
  keeps m -> (forall a, keeps (k a)) -> keeps (bind m k).
Proof.
  intros Hm Hk d. unfold bind. specialize (Hm d).
  destruct (m d) as [a d'| |]; auto.
  specialize (Hk a d'). destruct (k a d'); auto;
    eapply same_but_input_trans; eauto.
Qed.

Lemma keeps_read_bytes (n : nat) : keeps (read_bytes n).
Proof.
  intros d. unfold read_bytes, serial_read, Serial.read.
  destruct (serial d) as [s|] eqn:Hs; [|apply same_but_input_refl].
  destruct (Serial.read_events n (Serial.rx s)) as [bs rest].
  apply (same_but_input_set d s rest (Serial.timeout s) Hs).
Qed.

Lemma keeps_find_preamble : keeps find_preamble.
Proof.
  intros d. unfold find_preamble.
  destruct (serial d) as [s|] eqn:Hs; [|apply same_but_input_refl].
  destruct (scan_preamble scan_start (Serial.rx s)); auto;
    apply (same_but_input_set d s _ (Serial.timeout s) Hs).
Qed.

Lemma keeps_read_frame_body (pre : bytes) : keeps (read_frame_body pre).
Proof.
  unfold read_frame_body.
  apply keeps_bind; [apply keeps_read_bytes|]. intros length_raw.
  destruct (negb _); [apply keeps_raise|].
  apply keeps_bind; [apply keeps_read_bytes|]. intros payload.
  destruct (negb _); [apply keeps_raise|].
  apply keeps_bind; [apply keeps_read_bytes|]. intros postamble.
  destruct (negb _); [apply keeps_raise|apply keeps_ret].
Qed.

Lemma keeps_read_any_message : keeps _read_any_message.
Proof.
  apply keeps_bind; [apply keeps_find_preamble|apply keeps_read_frame_body].
Qed.

Lemma keeps_rx_attempts (report_expected : bool) (retries : Z) (tries : nat) :
  keeps (rx_attempts report_expected retries tries).
Proof.
  induction tries as [|tries IH]; cbn [rx_attempts]; [apply keeps_raise|].
  apply keeps_bind; [apply keeps_read_any_message|]. intros m.
  destruct (right_kind _ m); [apply keeps_ret|exact IH].
Qed.

Lemma keeps_rx_sequence (report_expected : bool) (retries timeout : Z) :
  keeps (_rx_sequence report_expected retries timeout).
Proof.
  apply keeps_bind; [|intros _; apply keeps_rx_attempts].
  intros d. unfold set_serial_timeout.
  destruct (serial d) as [s|] eqn:Hs; [|apply same_but_input_refl].
  apply (same_but_input_set d s (Serial.rx s) (Some timeout) Hs).
Qed.

(* ================================================================== *)
(** ** The handshake *)

Lemma tx_ints_writes_frame (l : list Z) (body wire : bytes)
    (d : LD2410) (s : Serial.t) :
  list_ints_to_bytes l = Val body ->
  frame_wire false body = Val wire ->
  serial d = Some s ->
  _tx_sequence (SeqInts l) d
  = Ok tt (set_serial d (Some (Serial.write wire s))).
Proof.
  intros Hl Hw Hs. rewrite <- (tx_bytes_writes_frame body wire d s Hw Hs).
  unfold _tx_sequence. rewrite Hl. reflexivity.
Qed.

Lemma tx_needs_port (sequence : sequence) (d d' : LD2410) :
  _tx_sequence sequence d = Ok tt d' -> exists s, serial d = Some s.
Proof.
  destruct (serial d) as [s|] eqn:Hs; [eauto|].
  unfold _tx_sequence, bind.
  destruct (lift _ d) as [payload d1| |] eqn:E; try discriminate.
  assert (d1 = d) as ->.
  { destruct (match sequence with SeqBytes b => Val b | SeqInts l => _ end);
      unfold lift, ret, raise in E; congruence. }
  unfold serial_write at 1. rewrite Hs. discriminate.
Qed.

(** C4. If the first step of [run], entering configuration mode, gets an
    acknowledgement payload other than FF 01 00 00 01 00 40 00, [run] raises
    the exception of that step and nothing after it runs: the only bytes
    written are that step's command frame, no reading is recorded, and the
    worker is left not marked as stopped. *)
Theorem enter_config_mismatch_is_fatal (buffered : nat) (d d0 d1 : LD2410)
    (resp : bytes) :
  _tx_sequence (SeqInts [0xFF; 0x00; 0x01; 0x00])
               (set_stopped (set_running d true) false) = Ok tt d0 ->
  _rx_sequence false 10 2 d0 = Ok resp d1 ->
  resp <> [xff; x01; x00; x00; x01; x00; x40; x00] ->
  run buffered d
  = Raise (LD2410Exception "Failed to get ack to entering config mode") d1
  /\ (exists s s1,
        serial d = Some s /\ serial d1 = Some s1
        /\ Serial.tx s1
           = Serial.tx s ++ COMMAND_PREAMBLE ++ [x04; x00]
             ++ [xff; x00; x01; x00] ++ COMMAND_POSTAMBLE)
  /\ buffer d1 = buffer d
  /\ running d1 = true
  /\ stopped d1 = false.
Proof.
  intros Htx Hrx Hresp.
  assert (_enter_configuration_mode (set_stopped (set_running d true) false)
          = Raise (LD2410Exception "Failed to get ack to entering config mode")
                  d1) as Henter.
  { unfold _enter_configuration_mode.
    rewrite (bind_ok _ _ _ _ _ Htx), (bind_ok _ _ _ _ _ Hrx).
    unfold check_ack.
    change (list_ints_to_bytes [255; 1; 0; 0; 1; 0; 64; 0])
      with (Val [xff; x01; x00; x00; x01; x00; x40; x00]).
    cbn [lift]. rewrite bind_ret.
    destruct (bytes_eqb resp _) eqn:E; [|reflexivity].
    apply bytes_eqb_eq in E. contradiction. }
  split.
  { unfold run.
    erewrite bind_ok by reflexivity.
    apply bind_raise. unfold handshake. apply bind_raise. exact Henter. }
  destruct (tx_needs_port _ _ _ Htx) as [s Hs].
  rewrite (tx_ints_writes_frame [0xFF; 0x00; 0x01; 0x00] [xff; x00; x01; x00]
             (COMMAND_PREAMBLE ++ [x04; x00] ++ [xff; x00; x01; x00]
              ++ COMMAND_POSTAMBLE) _ s eq_refl eq_refl Hs) in Htx.
  pose proof (keeps_rx_sequence false 10 2 d0) as Hk. rewrite Hrx in Hk.
  injection Htx as <-.
  destruct (same_but_input_buffer _ _ Hk) as (Hb & Hr & Hst).
  destruct Hk as [_ Htxs]. cbn in Htxs, Hs, Hb, Hr, Hst.
  destruct (serial d1) as [s1|] eqn:Hs1; [|discriminate].
  split; [|auto].
  exists s, s1. injection Htxs as ->. auto.
Qed.

Lemma enter_config_mismatch_is_fatal_witness :
  let ack := [xfd; xfc; xfb; xfa; x04; x00; xff; x01; x01; x00;
              x04; x03; x02; x01] in
  let d := example_sensor (map Some ack) in
  let d1 := mkLD2410 "COM7" 256000 None true false (Deque.mk (Some 20%nat) [])
              (Some (Serial.mk []
                       (COMMAND_PREAMBLE ++ [x04; x00] ++ [xff; x00; x01; x00]
                        ++ COMMAND_POSTAMBLE) (Some 2)))
              "startup" 0 None 0 in
  run 0 d
  = Raise (LD2410Exception "Failed to get ack to entering config mode") d1
  /\ (exists s s1,
        serial d = Some s /\ serial d1 = Some s1
        /\ Serial.tx s1
           = Serial.tx s ++ COMMAND_PREAMBLE ++ [x04; x00]
             ++ [xff; x00; x01; x00] ++ COMMAND_POSTAMBLE)
  /\ buffer d1 = buffer d
  /\ running d1 = true
  /\ stopped d1 = false.
Proof.
  cbv zeta.
  eapply (enter_config_mismatch_is_fatal 0 (example_sensor _) _ _
            [xff; x01; x01; x00]).
  - reflexivity.
  - reflexivity.
  - discriminate.
Defined.

(* ================================================================== *)
(** ** The fixed-size reads *)

Lemma read_bytes_total (n : nat) (d : LD2410) (s : Serial.t) :
  serial d = Some s ->
  exists bs rest,
    read_bytes n d = Ok bs (with_input d s rest)
    /\ Serial.read_events n (Serial.rx s) = (bs, rest).
Proof.
  intros Hs. unfold read_bytes, serial_read, Serial.read. rewrite Hs.
  destruct (Serial.read_events n (Serial.rx s)) as [bs rest].
  exists bs, rest. split; reflexivity.
Qed.

(** A frame body that is returned was read whole: the payload has the
    declared length and the postamble has four bytes. *)
Lemma read_frame_body_inv (pre : bytes) (d d' : LD2410) (s : Serial.t)
    (m : bytes * bytes * bytes) :
  serial d = Some s ->
  read_frame_body pre d = Ok m d' ->
  exists lo hi payload post rest,
    m = (pre, payload, post)
    /\ Serial.rx s = map Some ([lo; hi] ++ payload ++ post) ++ rest
    /\ Z.of_nat (List.length payload) = byte_pair_to_int [lo; hi]
    /\ List.length post = 4%nat
    /\ d' = with_input d s rest.
Proof.
  intros Hs. unfold read_frame_body.
  destruct (read_bytes_total 2 d s Hs) as (lr & r1 & E1 & R1).
  rewrite (bind_ok _ _ _ _ _ E1).
  destruct (Nat.eqb_spec (List.length lr) 2) as [H2|H2]; cbn [negb];
    [|discriminate].
  destruct (read_bytes_total (Z.to_nat (byte_pair_to_int lr))
              (with_input d s r1) _ eq_refl) as (pl & r2 & E2 & R2).
  change (with_input (with_input d s r1) (Serial.set_rx s r1) r2)
    with (with_input d s r2) in E2.
  rewrite (bind_ok _ _ _ _ _ E2).
  destruct (Z.eqb_spec (Z.of_nat (List.length pl)) (byte_pair_to_int lr))
    as [HL|HL]; cbn [negb]; [|discriminate].
  destruct (read_bytes_total 4 (with_input d s r2) _ eq_refl)
    as (post & r3 & E3 & R3).
  rewrite (bind_ok _ _ _ _ _ E3).
  destruct (Nat.eqb_spec (List.length post) 4) as [H4|H4]; cbn [negb];
    [|discriminate].
  intros [= <- <-].
  apply read_events_full in R1; [|assumption].
  apply read_events_full in R2; [|lia].
  apply read_events_full in R3; [|assumption].
  cbn [Serial.rx Serial.set_rx] in R2, R3.
  destruct lr as [|lo [|hi [|? ?]]]; try discriminate.
  exists lo, hi, pl, post, r3. repeat split; auto.
  rewrite R1, R2, R3, !map_app, <- !app_assoc. reflexivity.
Qed.

(** With an open port the fixed-size reads end, and they fail only with the
    driver's own exception. *)
Lemma read_frame_body_cases (pre : bytes) (d : LD2410) (s : Serial.t) :
  serial d = Some s ->
  (exists m d', read_frame_body pre d = Ok m d')
  \/ (exists msg d', read_frame_body pre d = Raise (LD2410Exception msg) d').
Proof.
  intros Hs. unfold read_frame_body.
  destruct (read_bytes_total 2 d s Hs) as (lr & r1 & E1 & _).
  rewrite (bind_ok _ _ _ _ _ E1).
  destruct (negb _); [right; eexists _, _; reflexivity|].
  destruct (read_bytes_total (Z.to_nat (byte_pair_to_int lr))
              (with_input d s r1) _ eq_refl) as (pl & r2 & E2 & _).
  change (with_input (with_input d s r1) (Serial.set_rx s r1) r2)
    with (with_input d s r2) in E2.
  rewrite (bind_ok _ _ _ _ _ E2).
  destruct (negb _); [right; eexists _, _; reflexivity|].
  destruct (read_bytes_total 4 (with_input d s r2) _ eq_refl)
    as (post & r3 & E3 & _).
  rewrite (bind_ok _ _ _ _ _ E3).
  destruct (negb _); [right|left]; eexists _, _; reflexivity.
Qed.

(** Bytes that arrive before a timeout, or before the line goes silent,
    bound every run of bytes read from the head of the events. *)
Lemma arrived_prefix (xs : bytes) :
  forall (bs : bytes) (tail rest : list (option byte)),
    map Some bs ++ tail = map Some xs ++ rest ->
    tail = [] \/ (exists t, tail = None :: t) ->
    exists more, bs = xs ++ more.
Proof.
  induction xs as [|x xs IH]; intros bs tail rest E Ht; [exists bs; reflexivity|].
  destruct bs as [|b bs].
  - destruct Ht as [->|[t ->]]; discriminate.
  - simpl in E. injection E as -> E.
    destruct (IH bs tail rest E Ht) as [more ->]. exists more. reflexivity.
Qed.

(** C6. Once the preamble is recognised, if the bytes that arrive before the
    next timeout (or before the line goes silent) are fewer than the two
    length bytes, or fewer than the length bytes plus the declared payload
    plus the four postamble bytes, [_read_any_message] raises the driver's
    exception; and every frame it returns has a payload of exactly the
    declared length and a four-byte postamble, read from consecutive
    bytes. *)
Theorem short_read_is_an_error (d : LD2410) (s : Serial.t) (pre : bytes)
    (evs : list (option byte)) :
  serial d = Some s ->
  scan_preamble scan_start (Serial.rx s) = ScanDone pre evs ->
  (forall (bs : bytes) (tail : list (option byte)),
      evs = map Some bs ++ tail ->
      tail = [] \/ (exists t, tail = None :: t) ->
      (List.length bs < 2)%nat
      \/ (exists lo hi more,
             bs = lo :: hi :: more
             /\ Z.of_nat (List.length more) < byte_pair_to_int [lo; hi] + 4) ->
      exists msg d', _read_any_message d = Raise (LD2410Exception msg) d')
  /\ (forall (m : bytes * bytes * bytes) (d' : LD2410),
         _read_any_message d = Ok m d' ->
         exists lo hi payload post rest,
           m = (pre, payload, post)
           /\ evs = map Some ([lo; hi] ++ payload ++ post) ++ rest
           /\ Z.of_nat (List.length payload) = byte_pair_to_int [lo; hi]
           /\ List.length post = 4%nat
           /\ d' = with_input d s rest).
Proof.
  intros Hs Hscan.
  assert (_read_any_message d = read_frame_body pre (with_input d s evs)) as E.
  { unfold _read_any_message, bind, find_preamble. rewrite Hs, Hscan.
    reflexivity. }
  rewrite E. split.
  - intros bs tail Hevs Htail Hshort.
    destruct (read_frame_body_cases pre (with_input d s evs) _ eq_refl)
      as [(m & d' & Hok)|Hraise]; [|exact Hraise].
    exfalso.
    destruct (read_frame_body_inv pre (with_input d s evs) d'
                (Serial.set_rx s evs) m eq_refl Hok)
      as (lo & hi & payload & post & rest & _ & Hrx & HL & H4 & _).
    cbn [Serial.rx Serial.set_rx] in Hrx. rewrite Hevs in Hrx.
    destruct (arrived_prefix _ _ _ _ Hrx Htail) as [more' ->].
    destruct Hshort as [Hlt|(lo' & hi' & more & Hbs & Hlt)].
    + rewrite !length_app in Hlt. simpl in Hlt. lia.
    + simpl in Hbs. injection Hbs as <- <- <-.
      rewrite !length_app in Hlt. lia.
  - intros m d' Hok.
    destruct (read_frame_body_inv pre (with_input d s evs) d'
                (Serial.set_rx s evs) m eq_refl Hok)
      as (lo & hi & payload & post & rest & -> & Hrx & HL & H4 & ->).
    exists lo, hi, payload, post, rest. repeat split; auto.
Qed.

Lemma short_read_is_an_error_witness :
  let d := example_sensor
             (map Some [x00; xf4; xf3; xf2; xf1; x03; x00; xaa] ++ [None]) in
  let s := Serial.mk (map Some [x00; xf4; xf3; xf2; xf1; x03; x00; xaa]
                      ++ [None]) [] None in
  let evs := map Some [x03; x00; xaa] ++ [None] in
  (forall (bs : bytes) (tail : list (option byte)),
      evs = map Some bs ++ tail ->
      tail = [] \/ (exists t, tail = None :: t) ->
      (List.length bs < 2)%nat
      \/ (exists lo hi more,
             bs = lo :: hi :: more
             /\ Z.of_nat (List.length more) < byte_pair_to_int [lo; hi] + 4) ->
      exists msg d', _read_any_message d = Raise (LD2410Exception msg) d')
  /\ (forall (m : bytes * bytes * bytes) (d' : LD2410),
         _read_any_message d = Ok m d' ->
         exists lo hi payload post rest,
           m = (REPORTING_PREAMBLE, payload, post)
           /\ evs = map Some ([lo; hi] ++ payload ++ post) ++ rest
           /\ Z.of_nat (List.length payload) = byte_pair_to_int [lo; hi]
           /\ List.length post = 4%nat
           /\ d' = with_input d s rest).
Proof.
  cbv zeta.
  apply (short_read_is_an_error (example_sensor _) (Serial.mk _ [] None));
    reflexivity.
Defined.

(* ================================================================== *)
(** ** The report decoder and the length check of the reporting loop *)

Lemma new_from_bytes_short (now : Z) (seq : bytes) :
  (List.length seq < 35)%nat -> Reading.new_from_bytes now seq = Err IndexError.
Proof.
  intros H.
  do 35 (destruct seq as [|? seq]; [reflexivity|]).
  simpl in H. lia.
Qed.

Lemma new_from_bytes_35 (now : Z) (seq : bytes) :
  List.length seq = 35%nat -> exists r, Reading.new_from_bytes now seq = Val r.
Proof.
  intros H.
  do 35 (destruct seq as [|? seq]; [discriminate|]).
  destruct seq; [|discriminate]. eexists. reflexivity.
Qed.

Lemma next_report_payload_35 (fuel : nat) :
  forall (d d' : LD2410) (seq : bytes),
    next_report_payload fuel d = Ok seq d' -> List.length seq = 35%nat.
Proof.
  induction fuel as [|fuel IH]; intros d d' seq; cbn [next_report_payload];
    [discriminate|].
  destruct (String.eqb (port d) "test"); [discriminate|].
  unfold bind. destruct (_rx_sequence true 1 2 d) as [p d1| |]; try discriminate.
  destruct (Nat.eqb_spec (List.length p) 35) as [E|E].
  - intros [= <- _]. exact E.
  - apply IH.
Qed.

Lemma rx_sequence_one_report (payload wire : bytes)
    (rest : list (option byte)) (d : LD2410) (s : Serial.t) :
  frame_wire true payload = Val wire ->
  serial d = Some s ->
  Serial.rx s = map Some wire ++ rest ->
  _rx_sequence true 1 2 d
  = Ok payload (set_serial d (Some (Serial.mk rest (Serial.tx s) (Some 2)))).
Proof.
  intros Hw Hs Hrx. unfold _rx_sequence.
  erewrite bind_ok by (unfold set_serial_timeout; rewrite Hs; reflexivity).
  change (Z.to_nat 1) with 1%nat. cbn [rx_attempts].
  erewrite bind_ok
    by (apply (read_frame_wire true payload wire rest); [exact Hw|reflexivity|exact Hrx]).
  unfold right_kind. rewrite !bytes_eqb_refl. reflexivity.
Qed.

Lemma frames_wire_length (report : bool) (payloads : list bytes) :
  forall wires, frames_wire report payloads = Val wires ->
                (List.length payloads <= List.length wires)%nat.
Proof.
  induction payloads as [|p payloads IH]; intros wires; simpl.
  - intros [= <-]. simpl. lia.
  - destruct (frame_wire report p) as [w|] eqn:Ew; [|discriminate].
    destruct (frames_wire report payloads) as [ws|]; [|discriminate].
    simpl. intros [= <-]. specialize (IH ws eq_refl).
    apply frame_wire_length in Ew. rewrite length_app. lia.
Qed.

(** Report payloads of a length other than 35 are dropped one by one. *)
Lemma next_report_payload_skips (bad : list bytes) :
  forall (fuel : nat) (d : LD2410) (s : Serial.t) (wires wire good : bytes)
         (rest : list (option byte)),
    String.eqb (port d) "test" = false ->
    serial d = Some s ->
    Forall (fun p => List.length p <> 35%nat) bad ->
    List.length good = 35%nat ->
    frames_wire true bad = Val wires ->
    frame_wire true good = Val wire ->
    Serial.rx s = map Some (wires ++ wire) ++ rest ->
    (List.length bad < fuel)%nat ->
    next_report_payload fuel d
    = Ok good (set_serial d (Some (Serial.mk rest (Serial.tx s) (Some 2)))).
Proof.
  induction bad as [|p bad IH];
    intros fuel d s wires wire good rest Hport Hs Hbad Hgood Hws Hw Hrx Hfuel;
    (destruct fuel as [|fuel]; [simpl in Hfuel; lia|]);
    cbn [next_report_payload]; rewrite Hport.
  - simpl in Hws. injection Hws as <-. simpl in Hrx.
    rewrite (bind_ok _ _ _ _ _ (rx_sequence_one_report _ _ _ _ _ Hw Hs Hrx)).
    rewrite Hgood. reflexivity.
  - simpl in Hws.
    destruct (frame_wire true p) as [w|] eqn:Ew; [|discriminate].
    destruct (frames_wire true bad) as [ws|] eqn:Ews; [|discriminate].
    simpl in Hws. injection Hws as <-.
    rewrite <- app_assoc, map_app, <- app_assoc in Hrx.
    rewrite (bind_ok _ _ _ _ _ (rx_sequence_one_report _ _ _ _ _ Ew Hs Hrx)).
    inversion Hbad as [|? ? Hp Hbad']; subst.
    destruct (Nat.eqb_spec (List.length p) 35) as [E|_]; [contradiction|].
    rewrite (IH fuel _ (Serial.mk (map Some (ws ++ wire) ++ rest)
                                  (Serial.tx s) (Some 2))
                ws wire good rest); auto.
    simpl in Hfuel. lia.
Qed.

(** C7 (as the code behaves). No byte sequence shorter than 35 bytes
    produces a Reading: the decoder raises an index error on it.  The
    decoder itself checks no length; the reporting loop does:
    [_get_next_reading] returns only readings decoded from a 35-byte
    payload, and it drops every report payload of another length and reads
    the next report instead of raising an error. *)
Theorem reading_needs_35_bytes :
  (forall (now : Z) (seq : bytes),
      (List.length seq < 35)%nat ->
      Reading.new_from_bytes now seq = Err IndexError)
  /\ (forall (d d' : LD2410) (r : Reading.t),
         _get_next_reading d = Ok r d' ->
         exists seq, List.length seq = 35%nat
                     /\ Reading.new_from_bytes (clock d') seq = Val r)
  /\ (forall (d : LD2410) (s : Serial.t) (bad : list bytes)
             (wires wire good : bytes) (rest : list (option byte)),
         port d <> "test"%string ->
         serial d = Some s ->
         Forall (fun p => List.length p <> 35%nat) bad ->
         List.length good = 35%nat ->
         frames_wire true bad = Val wires ->
         frame_wire true good = Val wire ->
         Serial.rx s = map Some (wires ++ wire) ++ rest ->
         exists r,
           Reading.new_from_bytes (clock d) good = Val r
           /\ _get_next_reading d
              = Ok r (set_serial d (Some (Serial.mk rest (Serial.tx s) (Some 2))))).
Proof.
  split; [exact new_from_bytes_short|]. split.
  - intros d d' r. unfold _get_next_reading, bind.
    destruct (next_report_payload _ d) as [seq d1| |] eqn:E; try discriminate.
    apply next_report_payload_35 in E.
    destruct (Reading.new_from_bytes (clock d1) seq) as [r1|] eqn:Er;
      cbn [lift]; [|discriminate].
    intros [= <- <-]. eauto.
  - intros d s bad wires wire good rest Hport Hs Hbad Hgood Hws Hw Hrx.
    destruct (new_from_bytes_35 (clock d) good Hgood) as [r Hr].
    exists r. split; [exact Hr|].
    unfold _get_next_reading.
    erewrite bind_ok.
    2:{ apply (next_report_payload_skips bad _ d s wires wire good rest); auto.
        - apply String.eqb_neq. exact Hport.
        - apply frames_wire_length in Hws. unfold events_left.
          rewrite Hs, Hrx, length_app, length_map, length_app. lia. }
    cbn [clock set_serial]. rewrite Hr. reflexivity.
Qed.

Lemma reading_needs_35_bytes_witness :
  let short := [xf4; xf3; xf2; xf1; x01; x00; x07; xf8; xf7; xf6; xf5] in
  let full := REPORTING_PREAMBLE ++ [x23; x00] ++ example_payload
              ++ REPORTING_POSTAMBLE in
  let d := example_sensor (map Some (short ++ full) ++ []) in
  exists r,
    Reading.new_from_bytes (clock d) example_payload = Val r
    /\ _get_next_reading d
       = Ok r (set_serial d (Some (Serial.mk [] [] (Some 2)))).
Proof.
  cbv zeta.
  apply (proj2 (proj2 reading_needs_35_bytes)
           (example_sensor
              (map Some ([xf4; xf3; xf2; xf1; x01; x00; x07; xf8; xf7; xf6; xf5]
                         ++ REPORTING_PREAMBLE ++ [x23; x00] ++ example_payload
                         ++ REPORTING_POSTAMBLE) ++ []))
           (Serial.mk
              (map Some ([xf4; xf3; xf2; xf1; x01; x00; x07; xf8; xf7; xf6; xf5]
                         ++ REPORTING_PREAMBLE ++ [x23; x00] ++ example_payload
                         ++ REPORTING_POSTAMBLE) ++ []) [] None)
           [[x07]]
           [xf4; xf3; xf2; xf1; x01; x00; x07; xf8; xf7; xf6; xf5]
           (REPORTING_PREAMBLE ++ [x23; x00] ++ example_payload
            ++ REPORTING_POSTAMBLE)
           example_payload []).
  - discriminate.
  - reflexivity.
  - repeat constructor. discriminate.
  - reflexivity.
  - reflexivity.
  - reflexivity.
  - reflexivity.
Defined.

(** A sequence of 36 bytes is not 35 bytes long and the decoder returns a
    Reading for it. *)
Lemma reading_from_36_bytes :
  List.length (repeat x00 36) <> 35%nat
  /\ exists r, Reading.new_from_bytes 0 (repeat x00 36) = Val r.
Proof. split; [discriminate|]. eexists. reflexivity. Qed.

(* ================================================================== *)
(** ** The history buffer *)

Lemma record_reading_buffer (r : Reading.t) (d : LD2410) :
  exists d', record_reading r d = Ok tt d'
             /\ buffer d' = Deque.append r (buffer d).
Proof.
  unfold record_reading, bind, buffer_append.
  cbn [thresholds set_buffer].
  destruct (thresholds d); eexists; split; reflexivity.
Qed.

Lemma record_all_buffer (rs : list Reading.t) :
  forall d, exists d',
    record_all rs d = Ok tt d'
    /\ buffer d' = fold_left (fun b r => Deque.append r b) rs (buffer d).
Proof.
  induction rs as [|r rs IH]; intros d; cbn [record_all fold_left].
  - exists d. split; reflexivity.
  - destruct (record_reading_buffer r d) as (d1 & E1 & B1).
    destruct (IH d1) as (d2 & E2 & B2).
    exists d2. rewrite (bind_ok _ _ _ _ _ E1), <- B1. auto.
Qed.

(** Below the bound nothing is dropped. *)
Lemma append_all_fits {A} (N : nat) (l : list A) :
  forall items,
    (List.length items + List.length l <= N)%nat ->
    fold_left (fun b r => Deque.append r b) l (Deque.mk (Some N) items)
    = Deque.mk (Some N) (items ++ l).
Proof.
  induction l as [|x l IH]; intros items Hl; cbn [fold_left].
  - rewrite app_nil_r. reflexivity.
  - unfold Deque.append at 2. cbn [Deque.maxlen Deque.items].
    simpl in Hl.
    destruct (Nat.ltb_spec N (List.length (items ++ [x]))) as [H|_].
    + rewrite length_app in H. simpl in H. lia.
    + rewrite IH by (rewrite length_app; simpl; lia).
      rewrite <- app_assoc. reflexivity.
Qed.

Lemma split_last {A} (l : list A) (n : nat) :
  List.length l = S n ->
  exists front x, l = front ++ [x] /\ List.length front = n.
Proof.
  intros H. destruct (exists_last (l := l)) as (front & x & ->).
  - intros ->. discriminate.
  - exists front, x. split; [reflexivity|].
    rewrite length_app in H. simpl in H. lia.
Qed.

(** C8. For every capacity N >= 1, after N+1 readings are recorded into an
    empty history buffer of capacity N the buffer holds exactly N readings,
    namely all but the first one, and [get_latest] returns the (N+1)th
    reading recorded. *)
Theorem buffer_keeps_latest (N : nat) (rs : list Reading.t) (d : LD2410) :
  (1 <= N)%nat ->
  List.length rs = S N ->
  buffer d = Deque.mk (Some N) [] ->
  exists d' oldest kept newest,
    record_all rs d = Ok tt d'
    /\ rs = oldest :: kept
    /\ Deque.items (buffer d') = kept
    /\ Deque.len (buffer d') = N
    /\ nth_error rs N = Some newest
    /\ get_latest d' = Ok newest d'.
Proof.
  intros HN Hlen Hbuf.
  destruct (record_all_buffer rs d) as (d' & Hrec & Hb).
  destruct (split_last rs N Hlen) as (front & newest & -> & Hfront).
  destruct front as [|oldest front]; [simpl in Hfront; lia|].
  rewrite Hbuf, fold_left_app in Hb.
  rewrite append_all_fits in Hb by (simpl in *; lia). cbn [fold_left app] in Hb.
  unfold Deque.append in Hb. cbn [Deque.maxlen Deque.items] in Hb.
  destruct (Nat.ltb_spec N (List.length ((oldest :: front) ++ [newest])))
    as [_|H]; [|rewrite length_app in H; simpl in H, Hfront; lia].
  cbn [app tl] in Hb.
  exists d', oldest, (front ++ [newest]), newest.
  assert (List.length (front ++ [newest]) = N) as HlenN
    by (rewrite length_app; simpl in *; lia).
  repeat split.
  - exact Hrec.
  - rewrite Hb. reflexivity.
  - unfold Deque.len. rewrite Hb. exact HlenN.
  - rewrite nth_error_app2 by lia. rewrite Hfront, Nat.sub_diag. reflexivity.
  - unfold get_latest, Deque.len, Deque.last_item. rewrite Hb.
    cbn [Deque.items]. rewrite HlenN.
    destruct (Nat.eqb_spec N 0) as [?|_]; [lia|].
    rewrite rev_app_distr. reflexivity.
Qed.

Lemma buffer_keeps_latest_witness :
  let r := fun n => Reading.mk n [] [] 0 0 0 0 0 0 0 0 in
  let d := set_buffer (example_sensor []) (Deque.mk (Some 2%nat) []) in
  exists d' oldest kept newest,
    record_all [r 1; r 2; r 3] d = Ok tt d'
    /\ [r 1; r 2; r 3] = oldest :: kept
    /\ Deque.items (buffer d') = kept
    /\ Deque.len (buffer d') = 2%nat
    /\ nth_error [r 1; r 2; r 3] 2 = Some newest
    /\ get_latest d' = Ok newest d'.
Proof.
  cbv zeta.
  apply (buffer_keeps_latest 2
           [Reading.mk 1 [] [] 0 0 0 0 0 0 0 0;
            Reading.mk 2 [] [] 0 0 0 0 0 0 0 0;
            Reading.mk 3 [] [] 0 0 0 0 0 0 0 0]
           (set_buffer (example_sensor []) (Deque.mk (Some 2%nat) []))).
  - lia.
  - reflexivity.
  - reflexivity.
Defined.

(** The buffer [__init__] builds for a capacity has that bound and is
    empty. *)
Lemma init_buffer (port : string) (baud : Z) (N : nat)
    (th : option Thresholds.t) (now : Z) :
  exists d, __init__ port baud (Some (Z.of_nat N)) th now = Val d
            /\ buffer d = Deque.mk (Some N) [].
Proof.
  unfold __init__, Deque.new.
  destruct (Z.ltb_spec (Z.of_nat N) 0) as [?|_]; [lia|].
  rewrite Nat2Z.id. eexists. split; reflexivity.
Qed.

(* ================================================================== *)
(** ** The loops never run out of fuel

    Every message that is returned used up at least one event, so the loops
    of [_get_next_reading] and [run], started with one more unit of fuel
    than there are events, reach the silent line before the fuel ends: more
    fuel changes nothing. *)

Lemma scan_done_shorter (evs : list (option byte)) :
  forall st pre rest,
    scan_preamble st evs = ScanDone pre rest ->
    (List.length rest < List.length evs)%nat.
Proof.
  induction evs as [|[c|] evs IH]; intros st pre rest; simpl.
  - discriminate.
  - destruct (scan_step st c) as [[[|] st']|].
    + intros [= _ <-]. lia.
    + intros H. apply IH in H. lia.
    + discriminate.
  - intros H. apply IH in H. lia.
Qed.

Lemma read_any_message_consumes (d d' : LD2410) (m : bytes * bytes * bytes) :
  _read_any_message d = Ok m d' -> (events_left d' < events_left d)%nat.
Proof.
  unfold _read_any_message, bind, find_preamble, events_left.
  destruct (serial d) as [s|] eqn:Hs; [|discriminate].
  destruct (scan_preamble scan_start (Serial.rx s)) as [pre evs| |] eqn:Hscan;
    try discriminate.
  intros Hbody. apply scan_done_shorter in Hscan.
  destruct (read_frame_body_inv pre (with_input d s evs) d'
              (Serial.set_rx s evs) m eq_refl Hbody)
    as (lo & hi & payload & post & rest & _ & Hrx & _ & _ & ->).
  cbn [Serial.rx Serial.set_rx] in Hrx. cbn.
  rewrite Hrx, length_app in Hscan. lia.
Qed.

Lemma rx_attempts_consumes (report_expected : bool) (retries : Z)
    (tries : nat) :
  forall d d' payload,
    rx_attempts report_expected retries tries d = Ok payload d' ->
    (events_left d' < events_left d)%nat.
Proof.
  induction tries as [|tries IH]; intros d d' payload; cbn [rx_attempts];
    [discriminate|].
  unfold bind. destruct (_read_any_message d) as [m d1| |] eqn:E;
    try discriminate.
  apply read_any_message_consumes in E.
  destruct (right_kind report_expected m).
  - intros [= _ <-]. exact E.
  - intros H. apply IH in H. lia.
Qed.

Lemma rx_sequence_consumes (report_expected : bool) (retries timeout : Z)
    (d d' : LD2410) (payload : bytes) :
  _rx_sequence report_expected retries timeout d = Ok payload d' ->
  (events_left d' < events_left d)%nat.
Proof.
  unfold _rx_sequence, bind, set_serial_timeout.
  destruct (serial d) as [s|] eqn:Hs; intros H;
    apply rx_attempts_consumes in H; unfold events_left in *;
    cbn in H; rewrite ?Hs in *; exact H.
Qed.

Lemma next_report_payload_consumes (fuel : nat) :
  forall d d' seq,
    next_report_payload fuel d = Ok seq d' ->
    (events_left d' < events_left d)%nat.
Proof.
  induction fuel as [|fuel IH]; intros d d' seq; cbn [next_report_payload];
    [discriminate|].
  destruct (String.eqb (port d) "test"); [discriminate|].
  unfold bind. destruct (_rx_sequence true 1 2 d) as [p d1| |] eqn:E;
    try discriminate.
  apply rx_sequence_consumes in E.
  destruct (List.length p =? 35)%nat.
  - intros [= _ <-]. exact E.
  - intros H. apply IH in H. lia.
Qed.

Lemma next_report_payload_fuel (fuel : nat) :
  forall d fuel',
    (events_left d < fuel)%nat -> (events_left d < fuel')%nat ->
    next_report_payload fuel d = next_report_payload fuel' d.
Proof.
  induction fuel as [|fuel IH]; intros d fuel' H H'; [lia|].
  destruct fuel' as [|fuel']; [lia|]. cbn [next_report_payload].
  destruct (String.eqb (port d) "test"); [reflexivity|].
  unfold bind. destruct (_rx_sequence true 1 2 d) as [p d1| |] eqn:E;
    try reflexivity.
  apply rx_sequence_consumes in E.
  destruct (List.length p =? 35)%nat; [reflexivity|].
  apply IH; lia.
Qed.

Lemma get_next_reading_consumes (d d' : LD2410) (r : Reading.t) :
  _get_next_reading d = Ok r d' -> (events_left d' < events_left d)%nat.
Proof.
  unfold _get_next_reading, bind.
  destruct (next_report_payload _ d) as [seq d1| |] eqn:E; try discriminate.
  apply next_report_payload_consumes in E.
  destruct (Reading.new_from_bytes (clock d1) seq); cbn [lift];
    [|discriminate].
  intros [= _ <-]. exact E.
Qed.

Lemma record_reading_events (r : Reading.t) (d d' : LD2410) :
  record_reading r d = Ok tt d' -> events_left d' = events_left d.
Proof.
  unfold record_reading, bind, buffer_append. cbn [thresholds set_buffer].
  destruct (thresholds d); intros [= <-]; reflexivity.
Qed.

Lemma reporting_loop_fuel (fuel : nat) :
  forall d fuel',
    (events_left d < fuel)%nat -> (events_left d < fuel')%nat ->
    reporting_loop fuel d = reporting_loop fuel' d.
Proof.
  induction fuel as [|fuel IH]; intros d fuel' H H'; [lia|].
  destruct fuel' as [|fuel']; [lia|]. cbn [reporting_loop].
  destruct (running d); [|reflexivity].
  unfold bind at 1 3.
  destruct (_get_next_reading d) as [r d1| |] eqn:E; try reflexivity.
  apply get_next_reading_consumes in E.
  unfold bind.
  destruct (record_reading r d1) as [[] d2| |] eqn:E2; try reflexivity.
  apply record_reading_events in E2.
  apply IH; lia.
Qed.

(* ================================================================== *)
(** ** The model at work *)

(** Each turn of the preamble search is one [serial.read(1)]. *)
Lemma scan_preamble_reads_one (st : scan_state) (e : option byte)
    (evs : list (option byte)) :
  scan_preamble st (e :: evs)
  = match Serial.read_events 1 (e :: evs) with
    | ([], rest) => scan_preamble st rest
    | (c :: _, rest) =>
        match scan_step st c with
        | Err err => ScanRaise err rest
        | Val (true, st') => ScanDone (preamble st') rest
        | Val (false, st') => scan_preamble st' rest
        end
    end.
Proof. destruct e; reflexivity. Qed.

(** The class constants are what [list_ints_to_bytes] makes of their lists. *)
Example class_constants :
  list_ints_to_bytes [0xFD; 0xFC; 0xFB; 0xFA] = Val COMMAND_PREAMBLE
  /\ list_ints_to_bytes [0x04; 0x03; 0x02; 0x01] = Val COMMAND_POSTAMBLE
  /\ list_ints_to_bytes [0xF4; 0xF3; 0xF2; 0xF1] = Val REPORTING_PREAMBLE
  /\ list_ints_to_bytes [0xF8; 0xF7; 0xF6; 0xF5] = Val REPORTING_POSTAMBLE.
Proof. repeat split. Qed.

Example list_ints_out_of_range :
  list_ints_to_bytes [1; 256] = Err OverflowError
  /\ list_ints_to_bytes [-1] = Err OverflowError.
Proof. split; reflexivity. Qed.

(** On a line that stays silent the search for a preamble never ends. *)
Example silent_line_hangs :
  _read_any_message (example_sensor [None; Some x00; None]) = Hang.
Proof. reflexivity. Qed.

(** A payload cut off by a timeout. *)
Example payload_cut_short :
  _read_any_message
    (example_sensor (map Some [xf4; xf3; xf2; xf1; x03; x00; xaa] ++ [None]))
  = Raise (LD2410Exception "Payload was short, only received : 1 bytes")
          (example_sensor []).
Proof. reflexivity. Qed.

(** A length that does not fit the two-byte field stops the encoder after
    the preamble has been written. *)
Example tx_too_long :
  _tx_sequence (SeqBytes (repeat x00 (Z.to_nat 65536))) (example_sensor [])
  = Raise OverflowError
          (set_serial (example_sensor [])
                      (Some (Serial.mk [] COMMAND_PREAMBLE None))).
Proof. vm_compute. reflexivity. Qed.

(** In test mode no port is opened and the worker stops at its first
    write. *)
Example test_mode_run :
  exists d0 d1,
    __init__ "test" 256000 (Some 50) None 0 = Val d0
    /\ __enter__ [] d0 = Ok tt d1
    /\ run 0 d1 = Raise AttributeError (set_stopped (set_running d1 true) false).
Proof. eexists _, _. repeat split. Qed.

(* ================================================================== *)
(** * Further properties *)

(* ================================================================== *)
(** ** Conversions between ints and bytes *)

Lemma int_to_bytes_one (x : byte) : int_to_bytes (int_of_byte x) 1 = Val [x].
Proof.
  pose proof (int_of_byte_range x) as Hr.
  unfold int_to_bytes. destruct (Z.ltb_spec (int_of_byte x) 0); [lia|].
  cbn [to_bytes_le]. rewrite Z.mod_small, Z.div_small by lia.
  unfold int_of_byte. rewrite N2Z.id, Byte.of_to_N. reflexivity.
Qed.

Lemma int_to_bytes_one_inv (z : Z) (one : bytes) :
  int_to_bytes z 1 = Val one -> exists x, one = [x] /\ int_of_byte x = z.
Proof.
  unfold int_to_bytes. destruct (Z.ltb_spec z 0) as [|Hz]; [discriminate|].
  intros H. destruct (to_bytes_le_sound 1 z one Hz H) as [Hv Hl].
  destruct one as [|x [|? ?]]; try discriminate.
  exists x. split; [reflexivity|]. simpl in Hv. lia.
Qed.

Lemma list_ints_to_bytes_from_bytes (b : bytes) :
  forall acc, list_ints_to_bytes_from acc (bytes_to_list_ints b) = Val (acc ++ b).
Proof.
  induction b as [|x b IH]; intros acc; cbn [bytes_to_list_ints map
                                             list_ints_to_bytes_from].
  - rewrite app_nil_r. reflexivity.
  - rewrite int_to_bytes_one. cbn [res_bind].
    change (map int_of_byte b) with (bytes_to_list_ints b).
    rewrite IH, <- app_assoc. reflexivity.
Qed.

Lemma list_ints_to_bytes_from_inv (l : list Z) :
  forall acc b, list_ints_to_bytes_from acc l = Val b ->
                exists bs, b = acc ++ bs /\ bytes_to_list_ints bs = l.
Proof.
  induction l as [|z l IH]; intros acc b; cbn [list_ints_to_bytes_from].
  - intros [= <-]. exists []. rewrite app_nil_r. auto.
  - destruct (int_to_bytes z 1) as [one|] eqn:E; [|discriminate].
    cbn [res_bind]. intros H.
    destruct (int_to_bytes_one_inv _ _ E) as (x & -> & Hx).
    destruct (IH _ _ H) as (bs & -> & Hbs).
    exists (x :: bs). rewrite <- app_assoc. split; [reflexivity|].
    cbn [bytes_to_list_ints map]. rewrite Hx. f_equal. exact Hbs.
Qed.

(** X1. Turning a bytes object into its list of ints and back gives the
    same bytes: [list_ints_to_bytes] undoes [bytes_to_list_ints], and never
    fails on what it produces. *)
Theorem bytes_ints_bytes (b : bytes) :
  list_ints_to_bytes (bytes_to_list_ints b) = Val b.
Proof. apply (list_ints_to_bytes_from_bytes b []). Qed.

(** X2. Whenever [list_ints_to_bytes] returns, [bytes_to_list_ints] gives
    back the list it was called on, and the result has one byte per int. *)
Theorem ints_bytes_ints (l : list Z) (b : bytes) :
  list_ints_to_bytes l = Val b ->
  bytes_to_list_ints b = l /\ List.length b = List.length l.
Proof.
  intros H. destruct (list_ints_to_bytes_from_inv l [] b H) as (bs & -> & Hbs).
  cbn [app]. split; [exact Hbs|].
  rewrite <- Hbs. unfold bytes_to_list_ints. rewrite length_map. reflexivity.
Qed.

Lemma ints_bytes_ints_witness :
  bytes_to_list_ints [xff; x00; x01; x00] = [0xFF; 0x00; 0x01; 0x00]
  /\ List.length [xff; x00; x01; x00] = List.length [0xFF; 0x00; 0x01; 0x00].
Proof. apply (ints_bytes_ints [0xFF; 0x00; 0x01; 0x00]). reflexivity. Defined.

Lemma int_to_bytes_out_of_range (z : Z) :
  z < 0 \/ 255 < z -> int_to_bytes z 1 = Err OverflowError.
Proof.
  intros Hz. unfold int_to_bytes.
  destruct (Z.ltb_spec z 0) as [|Hn]; [reflexivity|].
  cbn [to_bytes_le]. destruct (byte_of_digit z) as (b & -> & _).
  destruct (Z.eqb_spec (z / 256) 0) as [E|_]; [|reflexivity].
  apply Z.div_small_iff in E; lia.
Qed.

Lemma list_ints_to_bytes_from_error (l : list Z) :
  forall acc e, list_ints_to_bytes_from acc l = Err e -> e = OverflowError.
Proof.
  induction l as [|z l IH]; intros acc e; cbn [list_ints_to_bytes_from];
    [discriminate|].
  destruct (int_to_bytes z 1) as [one|e'] eqn:E; cbn [res_bind].
  - apply IH.
  - intros [= <-]. unfold int_to_bytes in E.
    destruct (z <? 0); [congruence|]. cbn [to_bytes_le] in E.
    destruct (Byte.of_N _); [|congruence].
    destruct (z / 256 =? 0); cbn in E; congruence.
Qed.

(** X3. [list_ints_to_bytes] fails, with an overflow error, exactly when
    the list holds an int outside 0..255; nothing is returned for the ints
    before it. *)
Theorem list_ints_to_bytes_overflow (l : list Z) :
  Exists (fun z => z < 0 \/ 255 < z) l <->
  list_ints_to_bytes l = Err OverflowError.
Proof.
  split.
  - intros H. unfold list_ints_to_bytes. generalize (@nil byte).
    induction H as [z l Hz|z l _ IH]; intros acc;
      cbn [list_ints_to_bytes_from].
    + rewrite (int_to_bytes_out_of_range z Hz). reflexivity.
    + destruct (int_to_bytes z 1) as [one|e] eqn:E; cbn [res_bind];
        [apply IH|].
      rewrite (list_ints_to_bytes_from_error [z] acc e); [reflexivity|].
      cbn [list_ints_to_bytes_from]. rewrite E. reflexivity.
  - intros H. destruct (Exists_dec (fun z => z < 0 \/ 255 < z) l) as [E|N];
      [|exact E|].
    + intros z. destruct (Z_lt_dec z 0); [left; lia|].
      destruct (Z_lt_dec 255 z); [left; lia|right; lia].
    + exfalso.
      assert (Forall (fun b => 0 <= b <= 255) l) as F.
      { apply Forall_forall. intros z Hz.
        destruct (Z_lt_dec z 0); [exfalso; apply N; apply Exists_exists; exists z; split; auto|].
        destruct (Z_lt_dec 255 z); [exfalso; apply N; apply Exists_exists; exists z; split; auto|].
        lia. }
      destruct (list_ints_to_bytes_spec l F) as (bs & _ & E). congruence.
Qed.

(* ================================================================== *)
(** ** Little-endian integers *)

Lemma byte_pair_to_int_bound (bs : bytes) :
  0 <= byte_pair_to_int bs < 256 ^ Z.of_nat (List.length bs).
Proof.
  induction bs as [|b bs IH]; cbn [byte_pair_to_int List.length].
  - simpl. lia.
  - pose proof (int_of_byte_range b).
    rewrite Nat2Z.inj_succ, Z.pow_succ_r by lia. lia.
Qed.

Lemma to_bytes_le_of_bytes (bs : bytes) :
  to_bytes_le (List.length bs) (byte_pair_to_int bs) = Val bs.
Proof.
  induction bs as [|b bs IH]; cbn [byte_pair_to_int List.length to_bytes_le].
  - reflexivity.
  - pose proof (int_of_byte_range b) as Hb.
    replace ((int_of_byte b + 256 * byte_pair_to_int bs) mod 256)
      with (int_of_byte b)
      by (rewrite (Z.mul_comm 256), Z.mod_add, Z.mod_small; lia).
    replace ((int_of_byte b + 256 * byte_pair_to_int bs) / 256)
      with (byte_pair_to_int bs)
      by (rewrite (Z.mul_comm 256), Z.div_add, (Z.div_small (int_of_byte b)); lia).
    unfold int_of_byte at 1. rewrite N2Z.id, Byte.of_to_N, IH. reflexivity.
Qed.

(** X4. Reading a byte sequence as a little-endian integer and writing that
    integer back on as many bytes gives the same bytes; the integer is
    non-negative and below 256 to the number of bytes (below 65536 for the
    two bytes of a length field). *)
Theorem from_bytes_to_bytes (bs : bytes) :
  int_to_bytes (byte_pair_to_int bs) (List.length bs) = Val bs
  /\ 0 <= byte_pair_to_int bs < 256 ^ Z.of_nat (List.length bs).
Proof.
  pose proof (byte_pair_to_int_bound bs) as Hb. split; [|exact Hb].
  unfold int_to_bytes. destruct (Z.ltb_spec (byte_pair_to_int bs) 0); [lia|].
  apply to_bytes_le_of_bytes.
Qed.

Lemma to_bytes_le_error (len : nat) :
  forall n e, to_bytes_le len n = Err e -> e = OverflowError.
Proof.
  induction len as [|len IH]; intros n e; cbn [to_bytes_le].
  - destruct (n =? 0); congruence.
  - destruct (Byte.of_N _); [|congruence].
    destruct (to_bytes_le len (n / 256)) as [bs|e'] eqn:E; cbn [res_bind];
      [discriminate|].
    intros [= <-]. eapply IH; eauto.
Qed.

(** X5. [n.to_bytes(len, "little")] succeeds exactly when 0 <= n < 256^len,
    and then gives [len] bytes that read back as n; in every other case it
    is an overflow error. *)
Theorem int_to_bytes_fits (n : Z) (len : nat) :
  ((exists bs, int_to_bytes n len = Val bs
               /\ List.length bs = len /\ byte_pair_to_int bs = n)
   <-> 0 <= n < 256 ^ Z.of_nat len)
  /\ (int_to_bytes n len = Err OverflowError
      <-> (n < 0 \/ 256 ^ Z.of_nat len <= n)).
Proof.
  assert (0 <= n < 256 ^ Z.of_nat len ->
          exists bs, int_to_bytes n len = Val bs
                     /\ List.length bs = len /\ byte_pair_to_int bs = n) as Hfit.
  { intros Hn. unfold int_to_bytes. destruct (Z.ltb_spec n 0); [lia|].
    destruct (to_bytes_le_fits len n Hn) as [bs E].
    destruct (to_bytes_le_sound len n bs ltac:(lia) E). eauto. }
  assert (forall bs, int_to_bytes n len = Val bs ->
                     0 <= n < 256 ^ Z.of_nat len) as Hval.
  { intros bs. unfold int_to_bytes.
    destruct (Z.ltb_spec n 0) as [|H0]; [discriminate|]. intros E.
    destruct (to_bytes_le_sound len n bs H0 E) as [Hv Hl].
    pose proof (byte_pair_to_int_bound bs). rewrite Hv, Hl in *. lia. }
  split; split.
  - intros (bs & E & _). eauto.
  - exact Hfit.
  - intros E.
    destruct (Z_lt_dec n 0); [lia|].
    destruct (Z_le_dec (256 ^ Z.of_nat len) n); [lia|].
    destruct Hfit as (bs & E' & _); [lia|]. congruence.
  - intros Hn. unfold int_to_bytes.
    destruct (Z.ltb_spec n 0) as [|H0]; [reflexivity|].
    destruct (to_bytes_le len n) as [bs|e] eqn:E.
    + exfalso. specialize (Hval bs). unfold int_to_bytes in Hval.
      destruct (Z.ltb_spec n 0); [lia|]. specialize (Hval E). lia.
    + rewrite (to_bytes_le_error _ _ _ E). reflexivity.
Qed.

(* ================================================================== *)
(** ** The report decoder on sequences of any length *)

Lemma new_from_bytes_prefix (now : Z) (seq extra : bytes) :
  List.length seq = 35%nat ->
  Reading.new_from_bytes now (seq ++ extra) = Reading.new_from_bytes now seq.
Proof.
  intros H.
  do 35 (destruct seq as [|? seq]; [discriminate|]).
  destruct seq; [|discriminate]. reflexivity.
Qed.

Lemma split_at_35 (seq : bytes) :
  (35 <= List.length seq)%nat ->
  exists head extra, seq = head ++ extra /\ List.length head = 35%nat.
Proof.
  intros H. exists (firstn 35 seq), (skipn 35 seq).
  rewrite firstn_skipn, length_firstn. split; [reflexivity|lia].
Qed.

(** X6. The report decoder returns a Reading exactly for the sequences of
    at least 35 bytes (on shorter ones it raises an index error), and the
    bytes after the 35th have no influence on the Reading. *)
Theorem new_from_bytes_length (now : Z) (seq : bytes) :
  ((exists r, Reading.new_from_bytes now seq = Val r)
   <-> (35 <= List.length seq)%nat)
  /\ (Reading.new_from_bytes now seq = Err IndexError
      <-> (List.length seq < 35)%nat)
  /\ Reading.new_from_bytes now seq
     = Reading.new_from_bytes now (firstn 35 seq).
Proof.
  assert ((35 <= List.length seq)%nat ->
          exists r, Reading.new_from_bytes now seq = Val r) as Hlong.
  { intros H. destruct (split_at_35 seq H) as (head & extra & -> & Hh).
    rewrite new_from_bytes_prefix by exact Hh.
    apply new_from_bytes_35. exact Hh. }
  split; [|split].
  - split; [|exact Hlong].
    intros [r Hr]. destruct (Nat.le_gt_cases 35 (List.length seq)) as [|Hs];
      [assumption|].
    rewrite (new_from_bytes_short now seq Hs) in Hr. discriminate.
  - split; [|apply new_from_bytes_short].
    intros E. destruct (Nat.le_gt_cases 35 (List.length seq)) as [Hl|];
      [|assumption].
    destruct (Hlong Hl) as [r Hr]. congruence.
  - destruct (Nat.le_gt_cases 35 (List.length seq)) as [Hl|Hs].
    + rewrite <- (firstn_skipn 35 seq) at 1.
      apply new_from_bytes_prefix. rewrite length_firstn. lia.
    + rewrite firstn_all2 by lia. reflexivity.
Qed.

Lemma getitem_range (seq : bytes) (i : nat) (z : Z) :
  getitem seq i = Val z -> 0 <= z <= 255.
Proof.
  unfold getitem. destruct (nth_error seq i); [|discriminate].
  intros [= <-]. apply int_of_byte_range.
Qed.

Lemma mapM_getitem_range (seq : bytes) (f : nat -> nat) (idx : list nat) :
  forall zs, mapM_res (fun i => getitem seq (f i)) idx = Val zs ->
             List.length zs = List.length idx
             /\ Forall (fun z => 0 <= z <= 255) zs.
Proof.
  induction idx as [|i idx IH]; intros zs; cbn [mapM_res].
  - intros [= <-]. split; [reflexivity|constructor].
  - destruct (getitem seq (f i)) as [z|] eqn:E; [|discriminate].
    destruct (mapM_res _ idx) as [zs'|]; [|discriminate].
    cbn [res_bind]. intros [= <-].
    destruct (IH zs' eq_refl) as [Hl Hf]. split; [simpl; congruence|].
    constructor; [eapply getitem_range; eauto|exact Hf].
Qed.

Lemma slice_pair_range (seq : bytes) (a : nat) :
  0 <= byte_pair_to_int (slice seq a (a + 2)) <= 65535.
Proof.
  pose proof (byte_pair_to_int_bound (slice seq a (a + 2))) as Hb.
  assert (List.length (slice seq a (a + 2)) <= 2)%nat as Hl.
  { unfold slice. rewrite length_firstn. lia. }
  assert (256 ^ Z.of_nat (List.length (slice seq a (a + 2))) <= 256 ^ 2)
    by (apply Z.pow_le_mono_r; lia).
  change (256 ^ 2) with 65536 in *. lia.
Qed.

(** X7. Every Reading the decoder returns has the value of the first byte,
    whatever it is, as its target state; its three distances are 16-bit
    values, its energies and maximum distances 8-bit values, and each of its
    two gate lists holds 12 values between 0 and 255. *)
Theorem reading_fields_in_range (now : Z) (seq : bytes) (r : Reading.t) :
  Reading.new_from_bytes now seq = Val r ->
  getitem seq 0 = Val (Reading.target_state r)
  /\ Reading.timestamp r = now
  /\ 0 <= Reading.moving_target_range r <= 65535
  /\ 0 <= Reading.static_target_range r <= 65535
  /\ 0 <= Reading.detection_distance r <= 65535
  /\ 0 <= Reading.moving_target_energy r <= 255
  /\ 0 <= Reading.static_target_energy r <= 255
  /\ 0 <= Reading.max_moving_distance r <= 255
  /\ 0 <= Reading.max_static_distance r <= 255
  /\ List.length (Reading.moving r) = 12%nat
  /\ List.length (Reading.static r) = 12%nat
  /\ Forall (fun z => 0 <= z <= 255) (Reading.moving r)
  /\ Forall (fun z => 0 <= z <= 255) (Reading.static r).
Proof.
  unfold Reading.new_from_bytes.
  destruct (mapM_res (fun i => getitem seq (11 + i)) _) as [movs|] eqn:Em;
    [|discriminate].
  cbn [res_bind].
  destruct (mapM_res (fun i => getitem seq (23 + i)) _) as [stats|] eqn:Es;
    [|discriminate].
  cbn [res_bind].
  destruct (getitem seq 0) as [ts|] eqn:E0; [|discriminate]. cbn [res_bind].
  destruct (getitem seq 3) as [me|] eqn:E3; [|discriminate]. cbn [res_bind].
  destruct (getitem seq 6) as [se|] eqn:E6; [|discriminate]. cbn [res_bind].
  destruct (getitem seq 9) as [mm|] eqn:E9; [|discriminate]. cbn [res_bind].
  destruct (getitem seq 10) as [ms|] eqn:E10; [|discriminate]. cbn [res_bind].
  intros [= <-]. cbn.
  destruct (mapM_getitem_range seq (fun i => (11 + i)%nat) _ _ Em) as [Lm Fm].
  destruct (mapM_getitem_range seq (fun i => (23 + i)%nat) _ _ Es) as [Ls Fs].
  repeat split; try (eapply getitem_range; eassumption);
    try apply (slice_pair_range seq 1);
    try apply (slice_pair_range seq 4);
    try apply (slice_pair_range seq 7);
    try assumption.
Qed.

Lemma reading_fields_in_range_witness :
  exists r,
    getitem example_payload 0 = Val (Reading.target_state r)
    /\ Reading.timestamp r = 7
    /\ 0 <= Reading.moving_target_range r <= 65535
    /\ 0 <= Reading.static_target_range r <= 65535
    /\ 0 <= Reading.detection_distance r <= 65535
    /\ 0 <= Reading.moving_target_energy r <= 255
    /\ 0 <= Reading.static_target_energy r <= 255
    /\ 0 <= Reading.max_moving_distance r <= 255
    /\ 0 <= Reading.max_static_distance r <= 255
    /\ List.length (Reading.moving r) = 12%nat
    /\ List.length (Reading.static r) = 12%nat
    /\ Forall (fun z => 0 <= z <= 255) (Reading.moving r)
    /\ Forall (fun z => 0 <= z <= 255) (Reading.static r).
Proof.
  eexists. apply (reading_fields_in_range 7 example_payload). reflexivity.
Defined.

(* ================================================================== *)
(** ** The frame encoder at its limits *)

(** X8. A body of 65536 bytes or more makes [_tx_sequence] raise an
    overflow error when it builds the length field: by then the command
    preamble has been written, and nothing else is. *)
Theorem tx_too_long_leaves_preamble (body : bytes) (d : LD2410)
    (s : Serial.t) :
  65536 <= Z.of_nat (List.length body) ->
  serial d = Some s ->
  _tx_sequence (SeqBytes body) d
  = Raise OverflowError
          (set_serial d (Some (Serial.write COMMAND_PREAMBLE s))).
Proof.
  intros Hlen Hs. unfold _tx_sequence. cbn [lift]. rewrite bind_ret.
  rewrite (bind_ok _ _ _ _ _ (serial_write_at _ d s Hs)).
  destruct (int_to_bytes_fits (Z.of_nat (List.length body)) 2) as [_ [_ E]].
  rewrite E by (change (256 ^ Z.of_nat 2) with 65536; lia).
  reflexivity.
Qed.

Lemma tx_too_long_leaves_preamble_witness :
  _tx_sequence (SeqBytes (repeat x00 (Z.to_nat 65536))) (example_sensor [])
  = Raise OverflowError
          (set_serial (example_sensor [])
             (Some (Serial.write COMMAND_PREAMBLE (Serial.mk [] [] None)))).
Proof.
  apply (tx_too_long_leaves_preamble (repeat x00 (Z.to_nat 65536))
           (example_sensor []) (Serial.mk [] [] None)).
  - rewrite repeat_length. lia.
  - reflexivity.
Defined.

(** X9. A list with an int outside 0..255 makes [_tx_sequence] raise an
    overflow error before anything is written: the driver and its port are
    left as they were. *)
Theorem tx_bad_int_writes_nothing (l : list Z) (d : LD2410) :
  Exists (fun z => z < 0 \/ 255 < z) l ->
  _tx_sequence (SeqInts l) d = Raise OverflowError d.
Proof.
  intros H. apply list_ints_to_bytes_overflow in H.
  unfold _tx_sequence. rewrite H. reflexivity.
Qed.

Lemma tx_bad_int_writes_nothing_witness :
  _tx_sequence (SeqInts [0xFF; 256]) (example_sensor [])
  = Raise OverflowError (example_sensor []).
Proof.
  apply (tx_bad_int_writes_nothing [0xFF; 256] (example_sensor [])).
  apply Exists_cons_tl. apply Exists_cons_hd. lia.
Defined.

(** X10. Whenever [_tx_sequence] returns, it has appended exactly one
    command frame to the port's output -- preamble, the little-endian length
    of the body, the body, postamble, 10 bytes more than the body -- and has
    changed nothing else: not the pending input, not the timeout, not the
    driver. *)
Theorem tx_writes_one_frame (sequence : sequence) (d d' : LD2410) :
  _tx_sequence sequence d = Ok tt d' ->
  exists (s : Serial.t) (body : bytes) (lo hi : byte),
    serial d = Some s
    /\ match sequence with
       | SeqBytes b => body = b
       | SeqInts l => bytes_to_list_ints body = l
       end
    /\ byte_pair_to_int [lo; hi] = Z.of_nat (List.length body)
    /\ d' = set_serial d
              (Some (Serial.mk (Serial.rx s)
                       (Serial.tx s ++ COMMAND_PREAMBLE ++ [lo; hi] ++ body
                        ++ COMMAND_POSTAMBLE)
                       (Serial.timeout s))).
Proof.
  intros H. destruct (tx_needs_port _ _ _ H) as [s Hs].
  assert (exists body,
             match sequence with
             | SeqBytes b => Val b
             | SeqInts l => list_ints_to_bytes l
             end = Val body
             /\ match sequence with
                | SeqBytes b => body = b
                | SeqInts l => bytes_to_list_ints body = l
                end) as (body & Hconv & Hbody).
  { destruct sequence as [b|l].
    - exists b. auto.
    - destruct (list_ints_to_bytes l) as [body|e] eqn:E.
      + exists body. split; [reflexivity|].
        apply (ints_bytes_ints l body E).
      + unfold _tx_sequence in H. rewrite E in H. discriminate. }
  assert (_tx_sequence sequence d = _tx_sequence (SeqBytes body) d) as Hsame.
  { unfold _tx_sequence. rewrite Hconv. reflexivity. }
  rewrite Hsame in H.
  destruct (Z_lt_dec (Z.of_nat (List.length body)) 65536) as [Hfit|Hbig].
  - destruct (frame_wire_fits false body Hfit) as [wire Hw].
    destruct (frame_wire_inv _ _ _ Hw) as (lo & hi & -> & Hv).
    rewrite (tx_bytes_writes_frame body _ d s Hw Hs) in H.
    injection H as <-. exists s, body, lo, hi. repeat split; auto.
  - rewrite (tx_too_long_leaves_preamble body d s) in H by (auto; lia).
    discriminate.
Qed.

Lemma tx_writes_one_frame_witness :
  exists (s : Serial.t) (body : bytes) (lo hi : byte),
    serial (example_sensor [Some x07]) = Some s
    /\ bytes_to_list_ints body = [0xA0; 0x00]
    /\ byte_pair_to_int [lo; hi] = Z.of_nat (List.length body)
    /\ set_serial (example_sensor [Some x07])
         (Some (Serial.mk [Some x07]
                  (COMMAND_PREAMBLE ++ [x02; x00] ++ [xa0; x00]
                   ++ COMMAND_POSTAMBLE) None))
       = set_serial (example_sensor [Some x07])
           (Some (Serial.mk (Serial.rx s)
                    (Serial.tx s ++ COMMAND_PREAMBLE ++ [lo; hi] ++ body
                     ++ COMMAND_POSTAMBLE)
                    (Serial.timeout s))).
Proof.
  apply (tx_writes_one_frame (SeqInts [0xA0; 0x00]) (example_sensor [Some x07])).
  reflexivity.
Defined.

(* ================================================================== *)
(** ** The preamble search: what its variables can be *)

Lemma scan_inv_start : scan_inv scan_start.
Proof. left. reflexivity. Qed.

Ltac scan_cases report k Hk :=
  destruct report;
  (destruct k as [|[|[|[|k]]]]; [lia| | | |lia]).

(** One turn of the loop keeps the variables in shape, never raises, and
    breaks only with a whole preamble. *)
Lemma scan_step_inv (st : scan_state) (c : byte) :
  scan_inv st ->
  exists (b : bool) (st' : scan_state),
    scan_step st c = Val (b, st')
    /\ (b = false -> scan_inv st')
    /\ (b = true -> exists report, preamble st' = expected_preamble report).
Proof.
  intros [->|(report & k & Hk & ->)].
  - unfold scan_step. cbn.
    destruct (Byte.eqb c xfd) eqn:E1; cbn.
    + destruct (Byte.eqb c xf4) eqn:E2; eexists _, _;
        (split; [reflexivity|]); (split; [intros _|discriminate]).
      * right. exists true, 1%nat. apply Byte.byte_dec_bl in E2. subst c.
        split; [lia|reflexivity].
      * right. exists false, 1%nat. apply Byte.byte_dec_bl in E1. subst c.
        split; [lia|reflexivity].
    + destruct (Byte.eqb c xf4) eqn:E2; cbn; eexists _, _;
        (split; [reflexivity|]); (split; [intros _|discriminate]).
      * right. exists true, 1%nat. apply Byte.byte_dec_bl in E2. subst c.
        split; [lia|reflexivity].
      * left. reflexivity.
  - scan_cases report k Hk; unfold scan_step; cbn;
      match goal with
      | |- context [Byte.eqb c ?x] =>
          destruct (Byte.eqb c x) eqn:E; cbn;
          [apply Byte.byte_dec_bl in E; subst c|];
          eexists _, _; (split; [reflexivity|]);
          split; intros Hb; try discriminate Hb
      end;
      try (left; reflexivity);
      try (exists true; reflexivity);
      try (exists false; reflexivity);
      match goal with
      | |- scan_inv (mk_scan ?n _ REPORTING_PREAMBLE) =>
          right; exists true, n; split; [lia|reflexivity]
      | |- scan_inv (mk_scan ?n _ COMMAND_PREAMBLE) =>
          right; exists false, n; split; [lia|reflexivity]
      end.
Qed.

Lemma scan_over_inv (noise : bytes) :
  forall st st', scan_inv st -> scan_over st noise = Some st' -> scan_inv st'.
Proof.
  induction noise as [|c noise IH]; intros st st' Hinv; cbn [scan_over].
  - intros [= <-]. exact Hinv.
  - destruct (scan_step_inv st c Hinv) as (b & st1 & -> & Hf & _).
    destruct b; [discriminate|]. apply IH. auto.
Qed.

Lemma scan_preamble_inv (evs : list (option byte)) :
  forall st, scan_inv st ->
    match scan_preamble st evs with
    | ScanDone pre _ => exists report, pre = expected_preamble report
    | ScanRaise _ _ => False
    | ScanHang => True
    end.
Proof.
  induction evs as [|[c|] evs IH]; intros st Hinv; cbn [scan_preamble].
  - exact I.
  - destruct (scan_step_inv st c Hinv) as (b & st1 & -> & Hf & Ht).
    destruct b; [apply Ht; reflexivity|apply IH; auto].
  - apply IH. exact Hinv.
Qed.

(** X11. With an open port [_read_any_message] raises nothing but the
    driver's own exception (the search for the preamble itself never
    raises), and every message it returns carries the command preamble or
    the reporting preamble and a postamble of four bytes. *)
Theorem read_any_message_outcomes (d : LD2410) (s : Serial.t) :
  serial d = Some s ->
  match _read_any_message d with
  | Ok (pre, _, post) _ =>
      (pre = COMMAND_PREAMBLE \/ pre = REPORTING_PREAMBLE)
      /\ List.length post = 4%nat
  | Raise e _ => exists msg, e = LD2410Exception msg
  | Hang => True
  end.
Proof.
  intros Hs. unfold _read_any_message, bind, find_preamble. rewrite Hs.
  pose proof (scan_preamble_inv (Serial.rx s) scan_start scan_inv_start) as Hscan.
  destruct (scan_preamble scan_start (Serial.rx s)) as [pre evs| |];
    [|contradiction|exact I].
  destruct Hscan as [report ->].
  destruct (read_frame_body_cases (expected_preamble report)
              (set_serial d (Some (Serial.set_rx s evs))) _ eq_refl)
    as [(m & d' & E)|(msg & d' & E)]; rewrite E; [|eauto].
  destruct (read_frame_body_inv _ (with_input d s evs) d'
              (Serial.set_rx s evs) m eq_refl E)
    as (lo & hi & payload & post & rest & -> & _ & _ & H4 & _).
  split; [destruct report; auto|exact H4].
Qed.

Lemma read_any_message_outcomes_witness :
  match _read_any_message
          (example_sensor (map Some [xfd; xfc; xfb; xfa; x01; x00; x07;
                                     xf8; xf7; xf6; xf5])) with
  | Ok (pre, _, post) _ =>
      (pre = COMMAND_PREAMBLE \/ pre = REPORTING_PREAMBLE)
      /\ List.length post = 4%nat
  | Raise e _ => exists msg, e = LD2410Exception msg
  | Hang => True
  end.
Proof.
  apply (read_any_message_outcomes
           (example_sensor (map Some [xfd; xfc; xfb; xfa; x01; x00; x07;
                                      xf8; xf7; xf6; xf5]))
           (Serial.mk (map Some [xfd; xfc; xfb; xfa; x01; x00; x07;
                                 xf8; xf7; xf6; xf5]) [] None)).
  reflexivity.
Defined.

(* ================================================================== *)
(** ** What the scanner does not check *)

(** X12. [_read_any_message] does not check the postamble: after a preamble
    of either kind, a two-byte length and that many payload bytes, whatever
    four bytes come next are returned as the postamble. *)
Theorem any_postamble_is_returned (report : bool) (lo hi : byte)
    (payload post : bytes) (rest : list (option byte))
    (d : LD2410) (s : Serial.t) :
  byte_pair_to_int [lo; hi] = Z.of_nat (List.length payload) ->
  List.length post = 4%nat ->
  serial d = Some s ->
  Serial.rx s
  = map Some (expected_preamble report ++ [lo; hi] ++ payload ++ post) ++ rest ->
  _read_any_message d
  = Ok (expected_preamble report, payload, post) (with_input d s rest).
Proof.
  intros Hlen H4 Hs Hrx.
  rewrite map_app, <- app_assoc in Hrx.
  unfold _read_any_message.
  rewrite (bind_ok _ _ _ _ _ (find_preamble_at report _ d s Hs Hrx)).
  apply (read_frame_body_at _ payload post lo hi rest
           (with_input d s _) _ eq_refl eq_refl Hlen H4).
Qed.

Lemma any_postamble_is_returned_witness :
  _read_any_message
    (example_sensor
       (map Some (expected_preamble true ++ [x01; x00] ++ [x07]
                  ++ [x00; x00; x00; x00]) ++ [Some x55]))
  = Ok (expected_preamble true, [x07], [x00; x00; x00; x00])
       (with_input
          (example_sensor
             (map Some (expected_preamble true ++ [x01; x00] ++ [x07]
                        ++ [x00; x00; x00; x00]) ++ [Some x55]))
          (Serial.mk
             (map Some (expected_preamble true ++ [x01; x00] ++ [x07]
                        ++ [x00; x00; x00; x00]) ++ [Some x55]) [] None)
          [Some x55]).
Proof.
  apply (any_postamble_is_returned true x01 x00 [x07] [x00; x00; x00; x00]);
    reflexivity.
Defined.

(* ================================================================== *)
(** ** A frame behind a partial match *)

Lemma scan_partial_misses_preamble (st : scan_state) (report : bool)
    (evs : list (option byte)) :
  scan_inv st ->
  preamble_target_no st <> 0%nat ->
  scan_preamble st (map Some (expected_preamble report) ++ evs)
  = scan_preamble scan_start evs.
Proof.
  intros [->|(target & k & Hk & ->)] Hno; [contradiction|].
  scan_cases target k Hk; destruct report; reflexivity.
Qed.

(** X13. If the bytes before a frame leave the preamble search with a
    partial match pending, the frame is missed: its first byte, taken for
    the next byte of the pending match, only breaks that match, and the
    search is back at its start behind the frame's four preamble bytes. *)
Theorem frame_behind_partial_match_is_missed (noise : bytes)
    (st : scan_state) (report : bool) (evs : list (option byte))
    (d : LD2410) (s : Serial.t) :
  scan_over scan_start noise = Some st ->
  preamble_target_no st <> 0%nat ->
  serial d = Some s ->
  Serial.rx s = map Some (noise ++ expected_preamble report) ++ evs ->
  _read_any_message d = _read_any_message (with_input d s evs).
Proof.
  intros Hover Hno Hs Hrx.
  rewrite map_app, <- app_assoc in Hrx.
  unfold _read_any_message, bind, find_preamble. rewrite Hs, Hrx.
  rewrite (scan_over_skip _ _ _ _ Hover).
  rewrite scan_partial_misses_preamble;
    [|eapply scan_over_inv; [apply scan_inv_start|exact Hover]|exact Hno].
  cbn [serial set_serial with_input Serial.rx Serial.set_rx].
  destruct (scan_preamble scan_start evs); reflexivity.
Qed.

Lemma frame_behind_partial_match_is_missed_witness :
  let d := example_sensor
             (map Some ([x00; xf4; xf3] ++ expected_preamble true)
              ++ map Some [x01; x00; x07; xf8; xf7; xf6; xf5]) in
  let s := Serial.mk
             (map Some ([x00; xf4; xf3] ++ expected_preamble true)
              ++ map Some [x01; x00; x07; xf8; xf7; xf6; xf5]) [] None in
  _read_any_message d
  = _read_any_message
      (with_input d s (map Some [x01; x00; x07; xf8; xf7; xf6; xf5])).
Proof.
  cbv zeta.
  apply (frame_behind_partial_match_is_missed [x00; xf4; xf3]
           (mk_scan 2 [xf4; xf3] REPORTING_PREAMBLE) true);
    try reflexivity.
  discriminate.
Defined.

(* ================================================================== *)
(** ** Timeouts while the preamble arrives *)

Lemma scan_skips_timeouts (g : nat) (st : scan_state)
    (evs : list (option byte)) :
  scan_preamble st (repeat None g ++ evs) = scan_preamble st evs.
Proof. induction g as [|g IH]; [reflexivity|exact IH]. Qed.

Lemma scan_gapped_preamble (gaps : list nat) (report : bool)
    (evs : list (option byte)) :
  scan_preamble scan_start (with_gaps gaps (expected_preamble report) ++ evs)
  = ScanDone (expected_preamble report) evs.
Proof.
  destruct report; destruct gaps as [|g0 [|g1 [|g2 [|g3 gaps]]]];
    cbn [with_gaps expected_preamble REPORTING_PREAMBLE COMMAND_PREAMBLE];
    repeat (rewrite <- ?app_assoc, ?scan_skips_timeouts;
            cbn [app]; cbn [scan_preamble];
            match goal with
            | |- context [scan_step ?st ?c] =>
                let r := eval cbv in (scan_step st c) in
                change (scan_step st c) with r; cbn iota beta
            end);
    reflexivity.
Qed.

(** X14. Read timeouts before and between the bytes of a preamble do not
    disturb its recognition: however many timeouts separate the four
    preamble bytes, the frame that follows is returned as if they had
    arrived together. *)
Theorem preamble_survives_timeouts (gaps : list nat) (report : bool)
    (payload wire body : bytes) (rest : list (option byte))
    (d : LD2410) (s : Serial.t) :
  frame_wire report payload = Val wire ->
  wire = expected_preamble report ++ body ->
  serial d = Some s ->
  Serial.rx s
  = with_gaps gaps (expected_preamble report) ++ map Some body ++ rest ->
  _read_any_message d
  = Ok (expected_preamble report, payload, expected_postamble report)
       (with_input d s rest).
Proof.
  intros Hw Hwire Hs Hrx.
  destruct (frame_wire_inv _ _ _ Hw) as (lo & hi & Hform & Hlen).
  rewrite Hwire in Hform. apply app_inv_head in Hform. subst body.
  assert (find_preamble d
          = Ok (expected_preamble report)
               (with_input d s (map Some ([lo; hi] ++ payload
                                          ++ expected_postamble report)
                                ++ rest))) as Hfind.
  { unfold find_preamble. rewrite Hs, Hrx, scan_gapped_preamble.
    reflexivity. }
  unfold _read_any_message. rewrite (bind_ok _ _ _ _ _ Hfind).
  apply (read_frame_body_at _ payload (expected_postamble report) lo hi rest
           (with_input d s _) _ eq_refl eq_refl Hlen).
  destruct report; reflexivity.
Qed.

Lemma preamble_survives_timeouts_witness :
  let evs := with_gaps [2%nat; 0%nat; 1%nat] (expected_preamble true)
             ++ map Some [x01; x00; x07; xf8; xf7; xf6; xf5] ++ [] in
  _read_any_message (example_sensor evs)
  = Ok (expected_preamble true, [x07], expected_postamble true)
       (with_input (example_sensor evs) (Serial.mk evs [] None) []).
Proof.
  cbv zeta.
  apply (preamble_survives_timeouts [2%nat; 0%nat; 1%nat] true [x07]
           (expected_preamble true ++ [x01; x00; x07; xf8; xf7; xf6; xf5])
           [x01; x00; x07; xf8; xf7; xf6; xf5]);
    reflexivity.
Defined.

(* ================================================================== *)
(** ** The retrying receiver at its limits *)

(** X15. With a retry count of zero or less [_rx_sequence] reads nothing:
    it sets the port's timeout and raises its failure at once, the pending
    input untouched. *)
Theorem rx_without_retries (report_expected : bool) (retries timeout : Z)
    (d : LD2410) :
  retries <= 0 ->
  _rx_sequence report_expected retries timeout d
  = Raise (rx_failure report_expected retries)
          (match serial d with
           | Some s => set_serial d (Some (Serial.set_timeout s (Some timeout)))
           | None => d
           end).
Proof.
  intros H. unfold _rx_sequence, bind, set_serial_timeout.
  replace (Z.to_nat retries) with 0%nat by lia.
  destruct (serial d); reflexivity.
Qed.

Lemma rx_without_retries_witness :
  _rx_sequence true 0 2 (example_sensor [Some x07])
  = Raise (rx_failure true 0)
          (set_serial (example_sensor [Some x07])
             (Some (Serial.set_timeout (Serial.mk [Some x07] [] None) (Some 2)))).
Proof. apply (rx_without_retries true 0 2 (example_sensor [Some x07])). lia. Defined.

(** X16. An exception raised while a message is read is not retried: after
    any number of dropped wrong-kind messages, below the retry count, the
    exception of the next read leaves [_rx_sequence] as it is, whatever
    number of attempts remains. *)
Theorem rx_error_is_not_retried (report_expected : bool)
    (retries timeout : Z) (d d0 d1 d2 : LD2410)
    (wrong : list (bytes * bytes * bytes)) (e : exn) :
  set_serial_timeout timeout d = Ok tt d0 ->
  read_messages (List.length wrong) d0 = Some (wrong, d1) ->
  Forall (fun m => right_kind report_expected m = false) wrong ->
  (List.length wrong < Z.to_nat retries)%nat ->
  _read_any_message d1 = Raise e d2 ->
  _rx_sequence report_expected retries timeout d = Raise e d2.
Proof.
  intros Ht Hread Hwrong Hlt Hraise. unfold _rx_sequence.
  rewrite (bind_ok _ _ _ _ _ Ht).
  replace (Z.to_nat retries)
    with (List.length wrong + S (Z.to_nat retries - S (List.length wrong)))%nat
    by lia.
  rewrite (rx_attempts_skip_wrong _ _ _ _ _ _ Hread Hwrong).
  cbn [rx_attempts]. apply bind_raise. exact Hraise.
Qed.

Lemma rx_error_is_not_retried_witness :
  _rx_sequence true 10 2
    (example_sensor (map Some [xf4; xf3; xf2; xf1; x03; x00; xaa] ++ [None]))
  = Raise (LD2410Exception "Payload was short, only received : 1 bytes")
          (set_serial (example_sensor [])
                      (Some (Serial.mk [] [] (Some 2)))).
Proof.
  apply (rx_error_is_not_retried true 10 2
           (example_sensor
              (map Some [xf4; xf3; xf2; xf1; x03; x00; xaa] ++ [None]))
           (set_serial (example_sensor [])
              (Some (Serial.mk
                       (map Some [xf4; xf3; xf2; xf1; x03; x00; xaa] ++ [None])
                       [] (Some 2))))
           (set_serial (example_sensor [])
              (Some (Serial.mk
                       (map Some [xf4; xf3; xf2; xf1; x03; x00; xaa] ++ [None])
                       [] (Some 2))))
           _ []).
  - reflexivity.
  - reflexivity.
  - constructor.
  - simpl. lia.
  - reflexivity.
Defined.

(** X17. [_rx_sequence] only consumes input: whether it returns or raises,
    what has been written to the port, the history buffer, the thresholds,
    the presence flag and the worker's flags are as before. *)
Theorem rx_sequence_only_consumes (report_expected : bool)
    (retries timeout : Z) (d : LD2410) :
  match _rx_sequence report_expected retries timeout d with
  | Ok _ d' | Raise _ d' =>
      option_map Serial.tx (serial d') = option_map Serial.tx (serial d)
      /\ buffer d' = buffer d
      /\ thresholds d' = thresholds d
      /\ present d' = present d
      /\ running d' = running d
      /\ stopped d' = stopped d
  | Hang => True
  end.
Proof.
  pose proof (keeps_rx_sequence report_expected retries timeout d) as H.
  destruct (_rx_sequence report_expected retries timeout d) as [p d'|e d'|];
    [| |exact I];
    destruct H as [Hd Htx];
    (split; [exact Htx|]);
    repeat split;
    [exact (f_equal buffer Hd) | exact (f_equal thresholds Hd)
     | exact (f_equal present Hd) | exact (f_equal running Hd)
     | exact (f_equal stopped Hd)
     | exact (f_equal buffer Hd) | exact (f_equal thresholds Hd)
     | exact (f_equal present Hd) | exact (f_equal running Hd)
     | exact (f_equal stopped Hd)].
Qed.

Lemma mismatched_frame_is_wrong (report_expected report : bool)
    (payload post : bytes) :
  post <> expected_postamble report ->
  right_kind report_expected (expected_preamble report, payload, post) = false.
Proof.
  intros Hpost. unfold right_kind.
  destruct (bytes_eqb post (expected_postamble report_expected)) eqn:E;
    [|apply andb_false_r].
  apply bytes_eqb_eq in E. subst post.
  destruct report_expected, report; try reflexivity; contradiction.
Qed.

(** X18. A frame whose postamble is not the one of its preamble's kind is
    of the wrong kind whichever kind is expected: [_rx_sequence] drops it
    and, with a single attempt, raises its failure. *)
Theorem mismatched_frame_is_dropped (report_expected report : bool)
    (lo hi : byte) (payload post : bytes) (rest : list (option byte))
    (timeout : Z) (d : LD2410) (s : Serial.t) :
  byte_pair_to_int [lo; hi] = Z.of_nat (List.length payload) ->
  List.length post = 4%nat ->
  post <> expected_postamble report ->
  serial d = Some s ->
  Serial.rx s
  = map Some (expected_preamble report ++ [lo; hi] ++ payload ++ post) ++ rest ->
  _rx_sequence report_expected 1 timeout d
  = Raise (rx_failure report_expected 1)
          (set_serial d (Some (Serial.mk rest (Serial.tx s) (Some timeout)))).
Proof.
  intros Hlen H4 Hpost Hs Hrx. unfold _rx_sequence.
  erewrite bind_ok by (unfold set_serial_timeout; rewrite Hs; reflexivity).
  change (Z.to_nat 1) with 1%nat. cbn [rx_attempts].
  erewrite bind_ok
    by (apply (any_postamble_is_returned report lo hi payload post rest);
        [exact Hlen|exact H4|reflexivity|exact Hrx]).
  rewrite mismatched_frame_is_wrong by exact Hpost.
  reflexivity.
Qed.

Lemma mismatched_frame_is_dropped_witness :
  _rx_sequence false 1 2
    (example_sensor
       (map Some (expected_preamble false ++ [x01; x00] ++ [x07]
                  ++ REPORTING_POSTAMBLE) ++ []))
  = Raise (rx_failure false 1)
          (set_serial
             (example_sensor
                (map Some (expected_preamble false ++ [x01; x00] ++ [x07]
                           ++ REPORTING_POSTAMBLE) ++ []))
             (Some (Serial.mk [] [] (Some 2)))).
Proof.
  apply (mismatched_frame_is_dropped false false x01 x00 [x07]
           REPORTING_POSTAMBLE [] 2
           (example_sensor
              (map Some (expected_preamble false ++ [x01; x00] ++ [x07]
                         ++ REPORTING_POSTAMBLE) ++ []))
           (Serial.mk
              (map Some (expected_preamble false ++ [x01; x00] ++ [x07]
                         ++ REPORTING_POSTAMBLE) ++ []) [] None));
    try reflexivity.
  discriminate.
Defined.

(* ================================================================== *)
(** ** One command and its answer *)

Lemma frame_bytes_wire (report : bool) (payload : bytes) :
  Z.of_nat (List.length payload) < 65536 ->
  frame_wire report payload = Val (frame_bytes report payload).
Proof.
  intros H. unfold frame_bytes.
  destruct (frame_wire_fits report payload H) as [wire ->]. reflexivity.
Qed.

Lemma rx_sequence_first_frame (report : bool) (payload : bytes)
    (rest : list (option byte)) (retries timeout : Z)
    (d : LD2410) (s : Serial.t) :
  Z.of_nat (List.length payload) < 65536 ->
  0 < retries ->
  serial d = Some s ->
  Serial.rx s = map Some (frame_bytes report payload) ++ rest ->
  _rx_sequence report retries timeout d
  = Ok payload
       (set_serial d (Some (Serial.mk rest (Serial.tx s) (Some timeout)))).
Proof.
  intros Hlen Hr Hs Hrx. unfold _rx_sequence.
  erewrite bind_ok by (unfold set_serial_timeout; rewrite Hs; reflexivity).
  destruct (Z.to_nat retries) as [|n] eqn:E; [lia|]. cbn [rx_attempts].
  erewrite bind_ok
    by (apply (read_frame_wire report payload (frame_bytes report payload) rest);
        [apply frame_bytes_wire; exact Hlen|reflexivity|exact Hrx]).
  unfold right_kind. rewrite !bytes_eqb_refl. reflexivity.
Qed.

(** A command whose expected acknowledgement is the next frame on the
    line. *)
Lemma acked_exchange (cmd ack : list Z) (cb ab : bytes) (retries : Z)
    (msg : string) (rest : list (option byte)) (d : LD2410) (s : Serial.t) :
  list_ints_to_bytes cmd = Val cb ->
  list_ints_to_bytes ack = Val ab ->
  Z.of_nat (List.length cb) < 65536 ->
  Z.of_nat (List.length ab) < 65536 ->
  0 < retries ->
  serial d = Some s ->
  Serial.rx s = map Some (frame_bytes false ab) ++ rest ->
  (_tx_sequence (SeqInts cmd) ;;;
   resp <- _rx_sequence false retries 2 ;;
   check_ack resp ack msg) d
  = Ok tt (after_exchange d s (frame_bytes false cb) rest).
Proof.
  intros Hc Ha Hcl Hal Hr Hs Hrx.
  rewrite (bind_ok _ _ _ _ _
             (tx_ints_writes_frame cmd cb _ d s Hc (frame_bytes_wire _ _ Hcl) Hs)).
  erewrite bind_ok
    by (apply (rx_sequence_first_frame false ab rest retries 2);
        [exact Hal|exact Hr|reflexivity|exact Hrx]).
  unfold check_ack. rewrite Ha. cbn [lift]. rewrite bind_ret.
  rewrite bytes_eqb_refl. reflexivity.
Qed.

Ltac exchange cmd_bytes ack_bytes :=
  eapply acked_exchange with (cb := cmd_bytes) (ab := ack_bytes);
  [reflexivity|reflexivity|simpl; lia|simpl; lia|lia
  |first [eassumption|reflexivity]|first [eassumption|reflexivity]].

Lemma after_exchange_twice (d : LD2410) (s : Serial.t) (w1 w2 : bytes)
    (r1 r2 : list (option byte)) :
  after_exchange (after_exchange d s w1 r1)
                 (Serial.mk r1 (Serial.tx s ++ w1) (Some 2)) w2 r2
  = after_exchange d s (w1 ++ w2) r2.
Proof.
  unfold after_exchange, set_serial. cbn. rewrite <- app_assoc. reflexivity.
Qed.

(** A command whose answer, the next frame on the line, is taken as it
    is. *)
Lemma plain_exchange (cmd : list Z) (cb resp : bytes) (retries : Z)
    (rest : list (option byte)) (d : LD2410) (s : Serial.t) :
  list_ints_to_bytes cmd = Val cb ->
  Z.of_nat (List.length cb) < 65536 ->
  Z.of_nat (List.length resp) < 65536 ->
  0 < retries ->
  serial d = Some s ->
  Serial.rx s = map Some (frame_bytes false resp) ++ rest ->
  (_tx_sequence (SeqInts cmd) ;;;
   r <- _rx_sequence false retries 2 ;;
   ret tt) d
  = Ok tt (after_exchange d s (frame_bytes false cb) rest).
Proof.
  intros Hc Hcl Hrl Hr Hs Hrx.
  rewrite (bind_ok _ _ _ _ _
             (tx_ints_writes_frame cmd cb _ d s Hc (frame_bytes_wire _ _ Hcl) Hs)).
  erewrite bind_ok
    by (apply (rx_sequence_first_frame false resp rest retries 2);
        [exact Hrl|exact Hr|reflexivity|exact Hrx]).
  reflexivity.
Qed.

Lemma flush_after_exchange (d : LD2410) (s : Serial.t) (written : bytes)
    (junk rest : list (option byte)) :
  _flush_serial (List.length junk) (after_exchange d s written (junk ++ rest))
  = Ok tt (after_exchange d s written rest).
Proof.
  unfold _flush_serial, after_exchange, Serial.reset_input_buffer.
  cbn [serial set_serial Serial.rx Serial.set_rx Serial.tx Serial.timeout].
  rewrite skipn_app, skipn_all, Nat.sub_diag. reflexivity.
Qed.

(* ================================================================== *)
(** ** The handshake, start to end *)

(** X19. When the sensor answers every step as expected, the handshake
    completes: it writes the six command frames FF 00 01 00, A3 00,
    FF 00 01 00, A0 00, 62 00 and FE 00 in this order and nothing else,
    accepts any payload as the answer to the firmware query, drops the
    input flushed after the reset, and leaves the input behind the last
    acknowledgement pending. *)
Theorem handshake_completes (buffered : nat) (d : LD2410) (s : Serial.t)
    (junk rest : list (option byte)) (firmware : bytes) :
  serial d = Some s ->
  List.length junk = buffered ->
  Z.of_nat (List.length firmware) < 65536 ->
  Serial.rx s
  = map Some (frame_bytes false [xff; x01; x00; x00; x01; x00; x40; x00]
              ++ frame_bytes false [xa3; x01; x00; x00])
    ++ junk
    ++ map Some (frame_bytes false [xff; x01; x00; x00; x01; x00; x40; x00]
                 ++ frame_bytes false firmware
                 ++ frame_bytes false [x62; x01; x00; x00]
                 ++ frame_bytes false [xfe; x01; x00; x00])
    ++ rest ->
  handshake buffered d
  = Ok tt (after_exchange d s
             (frame_bytes false [xff; x00; x01; x00]
              ++ frame_bytes false [xa3; x00]
              ++ frame_bytes false [xff; x00; x01; x00]
              ++ frame_bytes false [xa0; x00]
              ++ frame_bytes false [x62; x00]
              ++ frame_bytes false [xfe; x00])
             rest).
Proof.
  intros Hs Hjunk Hfw Hrx.
  rewrite !map_app, <- !app_assoc in Hrx. subst buffered.
  unfold handshake.
  (* enter configuration mode *)
  unfold _enter_configuration_mode at 1.
  erewrite bind_ok
    by exchange [xff; x00; x01; x00] [xff; x01; x00; x00; x01; x00; x40; x00].
  (* reset *)
  unfold _send_reset.
  erewrite bind_ok by exchange [xa3; x00] [xa3; x01; x00; x00].
  rewrite after_exchange_twice.
  (* flush *)
  rewrite (bind_ok _ _ _ _ _ (flush_after_exchange _ _ _ _ _)).
  (* enter configuration mode again *)
  unfold _enter_configuration_mode.
  erewrite bind_ok
    by exchange [xff; x00; x01; x00] [xff; x01; x00; x00; x01; x00; x40; x00].
  rewrite after_exchange_twice.
  (* firmware version *)
  unfold _request_firmware_version.
  erewrite bind_ok
    by (eapply plain_exchange with (cb := [xa0; x00]) (resp := firmware);
        [reflexivity|simpl; lia|exact Hfw|lia|reflexivity|reflexivity]).
  rewrite after_exchange_twice.
  (* engineering mode *)
  unfold _start_engineering_mode.
  erewrite bind_ok by exchange [x62; x00] [x62; x01; x00; x00].
  rewrite after_exchange_twice.
  (* leave configuration mode *)
  unfold _leave_configuration_mode.
  erewrite acked_exchange with (cb := [xfe; x00]) (ab := [xfe; x01; x00; x00]);
    [|reflexivity|reflexivity|simpl; lia|simpl; lia|lia
     |reflexivity|reflexivity].
  rewrite after_exchange_twice, <- !app_assoc. reflexivity.
Qed.

Lemma handshake_completes_witness :
  let evs :=
    map Some (frame_bytes false [xff; x01; x00; x00; x01; x00; x40; x00]
              ++ frame_bytes false [xa3; x01; x00; x00])
    ++ [Some x55; None]
    ++ map Some (frame_bytes false [xff; x01; x00; x00; x01; x00; x40; x00]
                 ++ frame_bytes false [xa0; x01; x00; x00; x01; x02]
                 ++ frame_bytes false [x62; x01; x00; x00]
                 ++ frame_bytes false [xfe; x01; x00; x00])
    ++ [Some xf4] in
  handshake 2 (example_sensor evs)
  = Ok tt (after_exchange (example_sensor evs) (Serial.mk evs [] None)
             (frame_bytes false [xff; x00; x01; x00]
              ++ frame_bytes false [xa3; x00]
              ++ frame_bytes false [xff; x00; x01; x00]
              ++ frame_bytes false [xa0; x00]
              ++ frame_bytes false [x62; x00]
              ++ frame_bytes false [xfe; x00])
             [Some xf4]).
Proof.
  cbv zeta.
  apply (handshake_completes 2 (example_sensor _) (Serial.mk _ [] None)
           [Some x55; None] [Some xf4] [xa0; x01; x00; x00; x01; x02]).
  - reflexivity.
  - reflexivity.
  - simpl. lia.
  - reflexivity.
Defined.

(** A command answered by a frame with another payload than the expected
    acknowledgement. *)
Lemma acked_exchange_mismatch (cmd ack : list Z) (cb ab resp : bytes)
    (retries : Z) (msg : string) (rest : list (option byte))
    (d : LD2410) (s : Serial.t) :
  list_ints_to_bytes cmd = Val cb ->
  list_ints_to_bytes ack = Val ab ->
  Z.of_nat (List.length cb) < 65536 ->
  Z.of_nat (List.length resp) < 65536 ->
  resp <> ab ->
  0 < retries ->
  serial d = Some s ->
  Serial.rx s = map Some (frame_bytes false resp) ++ rest ->
  (_tx_sequence (SeqInts cmd) ;;;
   r <- _rx_sequence false retries 2 ;;
   check_ack r ack msg) d
  = Raise (LD2410Exception msg) (after_exchange d s (frame_bytes false cb) rest).
Proof.
  intros Hc Ha Hcl Hrl Hne Hr Hs Hrx.
  rewrite (bind_ok _ _ _ _ _
             (tx_ints_writes_frame cmd cb _ d s Hc (frame_bytes_wire _ _ Hcl) Hs)).
  erewrite bind_ok
    by (apply (rx_sequence_first_frame false resp rest retries 2);
        [exact Hrl|exact Hr|reflexivity|exact Hrx]).
  unfold check_ack. rewrite Ha. cbn [lift]. rewrite bind_ret.
  destruct (bytes_eqb resp ab) eqn:E; [|reflexivity].
  apply bytes_eqb_eq in E. contradiction.
Qed.

(** X20. If the sensor acknowledges the entry into configuration mode but
    answers the reset with a command frame of any other payload than
    A3 01 00 00, [run] raises the reset step's exception: the two command
    frames FF 00 01 00 and A3 00 are all that was written, the input is not
    flushed, and the worker is left running and not stopped. *)
Theorem reset_mismatch_is_fatal (buffered : nat) (d : LD2410) (s : Serial.t)
    (resp : bytes) (rest : list (option byte)) :
  serial d = Some s ->
  Z.of_nat (List.length resp) < 65536 ->
  resp <> [xa3; x01; x00; x00] ->
  Serial.rx s
  = map Some (frame_bytes false [xff; x01; x00; x00; x01; x00; x40; x00]
              ++ frame_bytes false resp) ++ rest ->
  run buffered d
  = Raise (LD2410Exception "Failed to get an ack on the attempt to reset")
          (after_exchange (set_stopped (set_running d true) false) s
             (frame_bytes false [xff; x00; x01; x00]
              ++ frame_bytes false [xa3; x00])
             rest).
Proof.
  intros Hs Hrl Hne Hrx.
  rewrite map_app, <- app_assoc in Hrx.
  unfold run. erewrite bind_ok by reflexivity.
  apply bind_raise. unfold handshake.
  unfold _enter_configuration_mode at 1.
  erewrite bind_ok
    by exchange [xff; x00; x01; x00] [xff; x01; x00; x00; x01; x00; x40; x00].
  apply bind_raise. unfold _send_reset.
  erewrite acked_exchange_mismatch
    with (cb := [xa3; x00]) (ab := [xa3; x01; x00; x00]) (resp := resp);
    [|reflexivity|reflexivity|simpl; lia|exact Hrl|exact Hne|lia
     |reflexivity|reflexivity].
  rewrite after_exchange_twice. reflexivity.
Qed.

Lemma reset_mismatch_is_fatal_witness :
  let evs :=
    map Some (frame_bytes false [xff; x01; x00; x00; x01; x00; x40; x00]
              ++ frame_bytes false [xa3; x01; x01; x00]) ++ [] in
  run 0 (example_sensor evs)
  = Raise (LD2410Exception "Failed to get an ack on the attempt to reset")
          (after_exchange
             (set_stopped (set_running (example_sensor evs) true) false)
             (Serial.mk evs [] None)
             (frame_bytes false [xff; x00; x01; x00]
              ++ frame_bytes false [xa3; x00])
             []).
Proof.
  cbv zeta.
  apply (reset_mismatch_is_fatal 0 (example_sensor _) (Serial.mk _ [] None)
           [xa3; x01; x01; x00] []).
  - reflexivity.
  - simpl. lia.
  - discriminate.
  - reflexivity.
Defined.

(* ================================================================== *)
(** ** The reporting loop and frames of the other kind *)

(** X21. A command frame that arrives while a report is awaited ends
    [_get_next_reading] with the receiver's failure for one attempt: the
    frame is consumed and no further frame is looked at. *)
Theorem command_frame_stops_reading (d : LD2410) (s : Serial.t)
    (payload : bytes) (rest : list (option byte)) :
  port d <> "test"%string ->
  serial d = Some s ->
  Z.of_nat (List.length payload) < 65536 ->
  Serial.rx s = map Some (frame_bytes false payload) ++ rest ->
  _get_next_reading d
  = Raise (LD2410Exception
             "Failed to get a message of type report after 1 attempts")
          (set_serial d (Some (Serial.mk rest (Serial.tx s) (Some 2)))).
Proof.
  intros Hport Hs Hlen Hrx.
  unfold _get_next_reading. apply bind_raise.
  cbn [next_report_payload].
  apply String.eqb_neq in Hport. rewrite Hport.
  apply bind_raise. unfold _rx_sequence.
  erewrite bind_ok by (unfold set_serial_timeout; rewrite Hs; reflexivity).
  change (Z.to_nat 1) with 1%nat. cbn [rx_attempts].
  erewrite bind_ok
    by (apply (read_frame_wire false payload (frame_bytes false payload) rest);
        [apply frame_bytes_wire; exact Hlen|reflexivity|exact Hrx]).
  reflexivity.
Qed.

Lemma command_frame_stops_reading_witness :
  _get_next_reading
    (example_sensor (map Some (frame_bytes false [xfe; x01; x00; x00]) ++ []))
  = Raise (LD2410Exception
             "Failed to get a message of type report after 1 attempts")
          (set_serial
             (example_sensor
                (map Some (frame_bytes false [xfe; x01; x00; x00]) ++ []))
             (Some (Serial.mk [] [] (Some 2)))).
Proof.
  apply (command_frame_stops_reading
           (example_sensor
              (map Some (frame_bytes false [xfe; x01; x00; x00]) ++ []))
           (Serial.mk (map Some (frame_bytes false [xfe; x01; x00; x00]) ++ [])
                      [] None)
           [xfe; x01; x00; x00] []).
  - discriminate.
  - reflexivity.
  - simpl. lia.
  - reflexivity.
Defined.

(* ================================================================== *)
(** ** Test mode and the port *)

(** X22. A driver built for the port named "test" gets no port when it is
    entered, and its worker then ends at the first write of the handshake
    with an attribute error: nothing is read and no reading is recorded. *)
Theorem test_mode_worker_fails (baud : Z) (maxlen : option Z)
    (th : option Thresholds.t) (now : Z) (incoming : list (option byte))
    (buffered : nat) (d0 : LD2410) :
  __init__ "test" baud maxlen th now = Val d0 ->
  exists d1,
    __enter__ incoming d0 = Ok tt d1
    /\ serial d1 = None
    /\ run buffered d1
       = Raise AttributeError (set_stopped (set_running d1 true) false).
Proof.
  unfold __init__. destruct (Deque.new maxlen) as [buf|]; [|discriminate].
  cbn. intros [= <-]. eexists. repeat split.
Qed.

Lemma test_mode_worker_fails_witness :
  exists d0 d1,
    __init__ "test" 256000 (Some 50) None 0 = Val d0
    /\ __enter__ [] d0 = Ok tt d1
    /\ serial d1 = None
    /\ run 0 d1 = Raise AttributeError (set_stopped (set_running d1 true) false).
Proof.
  eexists.
  destruct (test_mode_worker_fails 256000 (Some 50) None 0 [] 0 _ eq_refl)
    as (d1 & H1 & H2 & H3).
  exists d1. repeat split; assumption.
Defined.

(** X23. A driver whose port is open cannot be entered again: the second
    [__enter__] raises a serial exception and changes nothing. *)
Theorem enter_twice_fails (incoming again : list (option byte))
    (d d1 : LD2410) :
  port d <> "test"%string ->
  __enter__ incoming d = Ok tt d1 ->
  __enter__ again d1 = Raise SerialException d1.
Proof.
  intros Hport. unfold __enter__.
  destruct (serial d) as [s|] eqn:Hs; [discriminate|].
  apply String.eqb_neq in Hport. rewrite Hport. cbn [negb].
  intros [= <-]. reflexivity.
Qed.

Lemma enter_twice_fails_witness :
  __enter__ [Some x01] (example_sensor [])
  = Raise SerialException (example_sensor []).
Proof.
  apply (enter_twice_fails [] [Some x01]
           (set_serial (example_sensor []) None) (example_sensor [])).
  - discriminate.
  - reflexivity.
Defined.

(* ================================================================== *)
(** ** The history buffer over any number of readings *)

Lemma last_n_length {A} (n : nat) (l : list A) :
  List.length (last_n n l) = Nat.min n (List.length l).
Proof. unfold last_n. rewrite length_skipn. lia. Qed.

Lemma last_n_all {A} (n : nat) (l : list A) :
  (List.length l <= n)%nat -> last_n n l = l.
Proof.
  intros H. unfold last_n. replace (List.length l - n)%nat with 0%nat by lia.
  reflexivity.
Qed.

Lemma last_n_app {A} (n : nat) (a l : list A) :
  last_n n (last_n n a ++ l) = last_n n (a ++ l).
Proof.
  destruct (Nat.le_gt_cases (List.length a) n) as [H|H].
  - rewrite (last_n_all n a H). reflexivity.
  - unfold last_n at 1 3. rewrite !length_app, last_n_length.
    unfold last_n.
    replace (Nat.min n (List.length a) + List.length l - n)%nat
      with (List.length l) by lia.
    replace (List.length a + List.length l - n)%nat
      with (List.length l + (List.length a - n))%nat by lia.
    rewrite <- skipn_skipn. f_equal.
    rewrite skipn_app.
    replace (List.length a - n - List.length a)%nat with 0%nat by lia.
    reflexivity.
Qed.

Lemma append_is_last_n {A} (n : nat) (x : A) (items : list A) :
  (List.length items <= n)%nat ->
  Deque.append x (Deque.mk (Some n) items)
  = Deque.mk (Some n) (last_n n (items ++ [x])).
Proof.
  intros H. unfold Deque.append. cbn [Deque.maxlen Deque.items].
  destruct (Nat.ltb_spec n (List.length (items ++ [x]))) as [Hlt|Hge].
  - f_equal. unfold last_n. rewrite length_app in *. simpl in *.
    replace (List.length items + 1 - n)%nat with 1%nat by lia. reflexivity.
  - rewrite last_n_all by exact Hge. reflexivity.
Qed.

Lemma append_all_last_n {A} (n : nat) (l : list A) :
  forall items,
    (List.length items <= n)%nat ->
    fold_left (fun b r => Deque.append r b) l (Deque.mk (Some n) items)
    = Deque.mk (Some n) (last_n n (items ++ l)).
Proof.
  induction l as [|x l IH]; intros items H; cbn [fold_left].
  - rewrite app_nil_r, last_n_all by exact H. reflexivity.
  - rewrite append_is_last_n by exact H.
    rewrite IH by (rewrite last_n_length; lia).
    rewrite last_n_app, <- app_assoc. reflexivity.
Qed.

Lemma append_all_unbounded {A} (l : list A) :
  forall items,
    fold_left (fun b r => Deque.append r b) l (Deque.mk None items)
    = Deque.mk None (items ++ l).
Proof.
  induction l as [|x l IH]; intros items; cbn [fold_left].
  - rewrite app_nil_r. reflexivity.
  - unfold Deque.append at 2. cbn [Deque.maxlen Deque.items].
    rewrite IH, <- app_assoc. reflexivity.
Qed.

(** X24. After any number of readings are recorded into an empty history
    buffer, a buffer of capacity N holds the last min(N, count) of them in
    arrival order (none at all for capacity 0), and an unbounded buffer
    holds them all. *)
Theorem buffer_holds_most_recent (m : option nat) (rs : list Reading.t)
    (d : LD2410) :
  buffer d = Deque.mk m [] ->
  exists d',
    record_all rs d = Ok tt d'
    /\ Deque.maxlen (buffer d') = m
    /\ Deque.items (buffer d')
       = match m with
         | Some n => last_n n rs
         | None => rs
         end
    /\ Deque.len (buffer d')
       = match m with
         | Some n => Nat.min n (List.length rs)
         | None => List.length rs
         end.
Proof.
  intros Hbuf. destruct (record_all_buffer rs d) as (d' & Hrec & Hb).
  exists d'. split; [exact Hrec|]. rewrite Hbuf in Hb. unfold Deque.len.
  destruct m as [n|].
  - rewrite append_all_last_n in Hb by (simpl; lia). rewrite Hb.
    cbn [Deque.maxlen Deque.items app]. rewrite last_n_length. auto.
  - rewrite append_all_unbounded in Hb. rewrite Hb.
    cbn [Deque.maxlen Deque.items app]. auto.
Qed.

Lemma buffer_holds_most_recent_witness :
  let r := fun n => Reading.mk n [] [] 0 0 0 0 0 0 0 0 in
  let d := set_buffer (example_sensor []) (Deque.mk (Some 2%nat) []) in
  exists d',
    record_all [r 1; r 2; r 3; r 4; r 5] d = Ok tt d'
    /\ Deque.maxlen (buffer d') = Some 2%nat
    /\ Deque.items (buffer d') = last_n 2 [r 1; r 2; r 3; r 4; r 5]
    /\ Deque.len (buffer d') = Nat.min 2 (List.length [r 1; r 2; r 3; r 4; r 5]).
Proof.
  cbv zeta.
  apply (buffer_holds_most_recent (Some 2%nat)
           [Reading.mk 1 [] [] 0 0 0 0 0 0 0 0;
            Reading.mk 2 [] [] 0 0 0 0 0 0 0 0;
            Reading.mk 3 [] [] 0 0 0 0 0 0 0 0;
            Reading.mk 4 [] [] 0 0 0 0 0 0 0 0;
            Reading.mk 5 [] [] 0 0 0 0 0 0 0 0]
           (set_buffer (example_sensor []) (Deque.mk (Some 2%nat) []))).
  reflexivity.
Defined.

(* ================================================================== *)
(** ** The latest reading *)

Lemma append_last {A} (x : A) (q : Deque.t A) :
  Deque.maxlen q <> Some 0%nat ->
  exists front, Deque.items (Deque.append x q) = front ++ [x].
Proof.
  intros Hm. unfold Deque.append.
  destruct (Deque.maxlen q) as [n|]; cbn [Deque.items].
  - destruct (Nat.ltb_spec n (List.length (Deque.items q ++ [x]))) as [Hlt|_];
      cbn [Deque.items].
    + destruct (Deque.items q) as [|y items].
      * simpl in Hlt. assert (n = 0%nat) by lia. congruence.
      * exists items. reflexivity.
    + eauto.
  - eauto.
Qed.

Lemma record_then_latest (r : Reading.t) (d : LD2410) :
  Deque.maxlen (buffer d) <> Some 0%nat ->
  exists d', record_reading r d = Ok tt d'
             /\ get_latest d' = Ok r d'
             /\ serial d' = serial d.
Proof.
  intros Hm. destruct (record_reading_buffer r d) as (d' & Hrec & Hb).
  exists d'. split; [exact Hrec|].
  destruct (append_last r (buffer d) Hm) as [front Hf]. split.
  - unfold get_latest, Deque.len, Deque.last_item. rewrite Hb, Hf.
    rewrite length_app, rev_app_distr. cbn [List.length rev app].
    destruct (Nat.eqb_spec (List.length front + 1) 0) as [?|_]; [lia|].
    reflexivity.
  - revert Hrec. unfold record_reading, bind, buffer_append.
    cbn [thresholds set_buffer].
    destruct (thresholds d); intros [= <-]; reflexivity.
Qed.

(** X25. Unless the buffer has capacity 0, the reading just recorded is the
    one [get_latest] returns, whatever the buffer held before, and
    [get_latest] changes nothing. *)
Theorem latest_is_last_recorded (r : Reading.t) (d : LD2410) :
  Deque.maxlen (buffer d) <> Some 0%nat ->
  exists d', record_reading r d = Ok tt d' /\ get_latest d' = Ok r d'.
Proof.
  intros Hm.
  destruct (record_then_latest r d Hm) as (d' & H1 & H2 & _).
  eauto.
Qed.

Lemma latest_is_last_recorded_witness :
  exists d',
    record_reading (Reading.mk 9 [] [] 0 0 0 0 0 0 0 0) (example_sensor [])
    = Ok tt d'
    /\ get_latest d' = Ok (Reading.mk 9 [] [] 0 0 0 0 0 0 0 0) d'.
Proof.
  apply (latest_is_last_recorded (Reading.mk 9 [] [] 0 0 0 0 0 0 0 0)
           (example_sensor [])).
  discriminate.
Defined.

(** X26. With a history buffer of capacity 0 nothing is ever kept:
    whatever readings are recorded, [get_latest] afterwards waits for a
    reading that never comes. *)
Theorem zero_capacity_has_no_latest (rs : list Reading.t) (d : LD2410) :
  buffer d = Deque.mk (Some 0%nat) [] ->
  exists d', record_all rs d = Ok tt d' /\ get_latest d' = Hang.
Proof.
  intros Hbuf.
  destruct (record_all_buffer rs d) as (d' & Hrec & Hb).
  exists d'. split; [exact Hrec|].
  rewrite Hbuf, append_all_last_n in Hb by (simpl; lia).
  unfold get_latest, Deque.len. rewrite Hb. cbn [Deque.items].
  rewrite last_n_length. reflexivity.
Qed.

Lemma zero_capacity_has_no_latest_witness :
  exists d',
    record_all [Reading.mk 9 [] [] 0 0 0 0 0 0 0 0]
               (set_buffer (example_sensor []) (Deque.mk (Some 0%nat) []))
    = Ok tt d'
    /\ get_latest d' = Hang.
Proof.
  apply (zero_capacity_has_no_latest
           [Reading.mk 9 [] [] 0 0 0 0 0 0 0 0]
           (set_buffer (example_sensor []) (Deque.mk (Some 0%nat) []))).
  reflexivity.
Defined.

(** On an empty buffer [get_latest] waits; on a buffer that holds readings
    it returns the one recorded last and leaves the driver as it is. *)
Lemma get_latest_outcomes (d : LD2410) :
  match Deque.items (buffer d) with
  | [] => get_latest d = Hang
  | r :: rs => get_latest d = Ok (last rs r) d
  end.
Proof.
  unfold get_latest, Deque.len, Deque.last_item.
  destruct (Deque.items (buffer d)) as [|r rs] eqn:E; [reflexivity|].
  cbn [List.length Nat.eqb].
  destruct (exists_last (l := r :: rs)) as (front & x & Hx); [discriminate|].
  assert (last rs r = x) as ->.
  { change (last rs r) with (last (r :: rs) r) || idtac.
    assert (last (r :: rs) r = x) as H
      by (rewrite Hx; apply last_last).
    destruct rs; [simpl in *; exact H|exact H]. }
  rewrite Hx, rev_app_distr. reflexivity.
Qed.

(* ================================================================== *)
(** ** The presence flag *)

Lemma record_reading_present (r : Reading.t) (d : LD2410) :
  exists d',
    record_reading r d = Ok tt d'
    /\ thresholds d' = thresholds d
    /\ present d' = match thresholds d with
                    | Some _ => Some false
                    | None => present d
                    end.
Proof.
  unfold record_reading, bind, buffer_append.
  cbn [thresholds set_buffer].
  destruct (thresholds d) eqn:E; eexists; repeat split; cbn; auto.
Qed.

(** X27. Recording readings never reports presence: with thresholds set the
    presence flag is false after the first recorded reading and stays so,
    and without thresholds the flag is never touched. *)
Theorem presence_flag_after_recording (rs : list Reading.t) (d : LD2410) :
  exists d',
    record_all rs d = Ok tt d'
    /\ thresholds d' = thresholds d
    /\ present d' = match thresholds d, rs with
                    | Some _, _ :: _ => Some false
                    | _, _ => present d
                    end.
Proof.
  revert d. induction rs as [|r rs IH]; intros d; cbn [record_all].
  - exists d. repeat split. destruct (thresholds d); reflexivity.
  - destruct (record_reading_present r d) as (d1 & E1 & T1 & P1).
    destruct (IH d1) as (d2 & E2 & T2 & P2).
    exists d2. rewrite (bind_ok _ _ _ _ _ E1). split; [exact E2|].
    split; [congruence|]. rewrite P2, T1, P1.
    destruct (thresholds d), rs; reflexivity.
Qed.

(* ================================================================== *)
(** ** From a report on the line to the latest reading *)

(** X28. A report frame with a 35-byte payload at the head of the input is
    read, decoded and recorded by one turn of the reporting loop, and
    (unless the buffer has capacity 0) [get_latest] then returns the Reading
    decoded from that payload; the input behind the frame stays pending. *)
Theorem report_becomes_latest (d : LD2410) (s : Serial.t) (payload : bytes)
    (rest : list (option byte)) :
  port d <> "test"%string ->
  serial d = Some s ->
  List.length payload = 35%nat ->
  Deque.maxlen (buffer d) <> Some 0%nat ->
  Serial.rx s = map Some (frame_bytes true payload) ++ rest ->
  exists r d',
    Reading.new_from_bytes (clock d) payload = Val r
    /\ (read <- _get_next_reading ;; record_reading read) d = Ok tt d'
    /\ get_latest d' = Ok r d'
    /\ option_map Serial.rx (serial d') = Some rest.
Proof.
  intros Hport Hs Hlen Hcap Hrx.
  destruct (new_from_bytes_35 (clock d) payload Hlen) as [r Hr].
  assert (Z.of_nat (List.length payload) < 65536) as Hfit by lia.
  assert (_get_next_reading d
          = Ok r (set_serial d (Some (Serial.mk rest (Serial.tx s) (Some 2)))))
    as Hread.
  { unfold _get_next_reading.
    erewrite bind_ok.
    2:{ apply (next_report_payload_skips [] _ d s [] (frame_bytes true payload)
                 payload rest); auto.
        - apply String.eqb_neq. exact Hport.
        - apply frame_bytes_wire. exact Hfit.
        - simpl. lia. }
    cbn [clock set_serial]. rewrite Hr. reflexivity. }
  destruct (record_then_latest r
              (set_serial d (Some (Serial.mk rest (Serial.tx s) (Some 2)))) Hcap)
    as (d' & Hrec & Hlatest & Hserial).
  exists r, d'. split; [exact Hr|]. split.
  - rewrite (bind_ok _ _ _ _ _ Hread). exact Hrec.
  - split; [exact Hlatest|]. rewrite Hserial. reflexivity.
Qed.

Lemma report_becomes_latest_witness :
  let evs := map Some (frame_bytes true example_payload) ++ [Some x55] in
  exists r d',
    Reading.new_from_bytes (clock (example_sensor evs)) example_payload = Val r
    /\ (read <- _get_next_reading ;; record_reading read) (example_sensor evs)
       = Ok tt d'
    /\ get_latest d' = Ok r d'
    /\ option_map Serial.rx (serial d') = Some [Some x55].
Proof.
  cbv zeta.
  apply (report_becomes_latest
           (example_sensor
              (map Some (frame_bytes true example_payload) ++ [Some x55]))
           (Serial.mk
              (map Some (frame_bytes true example_payload) ++ [Some x55])
              [] None)
           example_payload [Some x55]).
  - discriminate.
  - reflexivity.
  - reflexivity.
  - discriminate.
  - reflexivity.
Defined.

(* ================================================================== *)
(** ** The hexadecimal dump *)

Lemma hex_item_shape (b : byte) :
  exists h l : ascii,
    ("0x" ++ format_02x (int_of_byte b))%string
    = String "0" (String "x" (String h (String l EmptyString))).
Proof. destruct b; eexists _, _; reflexivity. Qed.

Lemma hex_item_read_back (b : byte) :
  hex_item_byte ("0x" ++ format_02x (int_of_byte b))%string = Some b.
Proof. destruct b; vm_compute; reflexivity. Qed.

Lemma hex_item_inj (x y : byte) :
  ("0x" ++ format_02x (int_of_byte x))%string
  = ("0x" ++ format_02x (int_of_byte y))%string ->
  x = y.
Proof.
  intros H. pose proof (hex_item_read_back x) as Hx.
  rewrite H, hex_item_read_back in Hx. congruence.
Qed.

Lemma bytes_to_hex_cons (x : byte) (bs : bytes) :
  bytes_to_hex (x :: bs)
  = (("0x" ++ format_02x (int_of_byte x))
     ++ match bs with
        | [] => ""
        | _ :: _ => "," ++ bytes_to_hex bs
        end)%string.
Proof.
  unfold bytes_to_hex, bytes_to_list_ints. cbn [map String.concat].
  destruct bs as [|y bs]; cbn [map].
  - destruct (hex_item_shape x) as (h & l & ->). reflexivity.
  - reflexivity.
Qed.

Lemma four_chars_app (a b c d : ascii) (s : string) :
  (String a (String b (String c (String d EmptyString))) ++ s)%string
  = String a (String b (String c (String d s))).
Proof. reflexivity. Qed.

(** X29. The hexadecimal dump of a byte sequence is empty for the empty
    sequence and otherwise five characters per byte less one (each byte as
    0x and two digits, commas between), and it determines the bytes: two
    sequences have the same dump exactly when they are equal. *)
Theorem bytes_to_hex_faithful (a b : bytes) :
  String.length (bytes_to_hex a) = (5 * List.length a - 1)%nat
  /\ (bytes_to_hex a = bytes_to_hex b <-> a = b).
Proof.
  split; [|split; [|intros ->; reflexivity]].
  - induction a as [|x a IH]; [reflexivity|].
    rewrite bytes_to_hex_cons.
    destruct (hex_item_shape x) as (h & l & ->). rewrite four_chars_app.
    destruct a as [|y a]; [reflexivity|].
    cbn [String.length append]. rewrite IH. simpl List.length. lia.
  - revert b. induction a as [|x a IH]; intros [|y b].
    + reflexivity.
    + rewrite bytes_to_hex_cons.
      destruct (hex_item_shape y) as (h & l & ->). discriminate.
    + rewrite bytes_to_hex_cons.
      destruct (hex_item_shape x) as (h & l & ->). discriminate.
    + rewrite !bytes_to_hex_cons.
      destruct (hex_item_shape x) as (h & l & Ex).
      destruct (hex_item_shape y) as (h' & l' & Ey).
      rewrite Ex, Ey, !four_chars_app. intros [= Hh Hl Htail].
      assert (x = y) as -> by (apply hex_item_inj; congruence).
      f_equal. destruct a as [|x' a], b as [|y' b].
      * reflexivity.
      * discriminate Htail.
      * discriminate Htail.
      * apply IH. cbn [append] in Htail. congruence.
Qed.

Example bytes_to_hex_example :
  bytes_to_hex [x62; x01; x00; xff] = "0x62,0x01,0x00,0xff"%string.
Proof. reflexivity. Qed.
